(** * CodeSanctuary: browser-side scripts of the therapeutic coding site

    A shallow embedding of the JavaScript under [src/]:
    - [part_000]: the plain DOM script (mood selector, progress bars,
      [SessionTimer]);
    - [part_001]: [TherapeuticApp] (gentle mode, periodic reminders);
    - [therapy/static/therapy/js/main.js]: the jQuery script (global AJAX
      error handler).

    JavaScript numbers are modelled by [Z]: the numbers the scripts handle
    are integers, and an IEEE double holds an integer exactly up to 2^53 in
    absolute value. Where a number read from the page or from storage may lie
    beyond, the definition or the statement says so.
    The DOM, [localStorage], the interval scheduler and the notification area
    are explicit components of the state that each function threads. *)

From Stdlib Require Import ZArith List Lia Bool Ascii String.
From stdpp Require Import base gmap strings pretty list.

Local Open Scope string_scope.
Local Open Scope Z_scope.

(** ** JavaScript primitives used by the scripts *)
Module JS.

(** [Number.prototype.toString] on an integer: decimal digits, with a leading
    minus sign for negative numbers. *)
Definition toString (z : Z) : string := pretty z.

Fixpoint repeat_char (n : nat) (c : ascii) : string :=
  match n with
  | O => EmptyString
  | S n' => String c (repeat_char n' c)
  end.

(** [String.prototype.padStart(targetLength, padString)] for a one-character
    [padString]: nothing is added to (or cut from) a string that is already
    long enough. *)
Definition padStart (targetLength : nat) (padString : ascii) (s : string) : string :=
  repeat_char (targetLength - String.length s) padString +:+ s.

(** A string of the model holds the UTF-8 bytes of the JavaScript string it
    stands for. White space skipped by [parseInt] is the white space and the
    line terminators of ECMAScript; those written with one byte are the space
    and the characters 9 to 13. *)
Definition is_white_space (c : ascii) : bool :=
  let n := nat_of_ascii c in
  (n =? 32)%nat || ((9 <=? n)%nat && (n <=? 13)%nat).

(** U+00A0, the no-break space, is written with two bytes. *)
Definition is_white_space2 (c1 c2 : ascii) : bool :=
  (nat_of_ascii c1 =? 194)%nat && (nat_of_ascii c2 =? 160)%nat.

(** With three bytes: U+1680, U+2000 to U+200A, U+2028, U+2029, U+202F,
    U+205F, U+3000 and U+FEFF. *)
Definition is_white_space3 (c1 c2 c3 : ascii) : bool :=
  let n1 := nat_of_ascii c1 in
  let n2 := nat_of_ascii c2 in
  let n3 := nat_of_ascii c3 in
  ((n1 =? 225)%nat && (n2 =? 154)%nat && (n3 =? 128)%nat)
  || ((n1 =? 226)%nat
      && (((n2 =? 128)%nat
           && (((128 <=? n3)%nat && (n3 <=? 138)%nat)
               || (n3 =? 168)%nat || (n3 =? 169)%nat || (n3 =? 175)%nat))
          || ((n2 =? 129)%nat && (n3 =? 159)%nat)))
  || ((n1 =? 227)%nat && (n2 =? 128)%nat && (n3 =? 128)%nat)
  || ((n1 =? 239)%nat && (n2 =? 187)%nat && (n3 =? 191)%nat).

Fixpoint trimStart (s : string) : string :=
  match s with
  | String c1 s1 =>
      if is_white_space c1 then trimStart s1
      else
        match s1 with
        | String c2 s2 =>
            if is_white_space2 c1 c2 then trimStart s2
            else
              match s2 with
              | String c3 s3 =>
                  if is_white_space3 c1 c2 c3 then trimStart s3 else s
              | EmptyString => s
              end
        | EmptyString => s
        end
  | EmptyString => s
  end.

(** Value of [c] as a digit in the given radix (10 or 16), if it is one. *)
Definition digit_value (radix : Z) (c : ascii) : option Z :=
  let n := Z.of_nat (nat_of_ascii c) in
  if (48 <=? n) && (n <=? 57) then Some (n - 48)
  else if (radix =? 16) && (97 <=? n) && (n <=? 102) then Some (n - 87)
  else if (radix =? 16) && (65 <=? n) && (n <=? 70) then Some (n - 55)
  else None.

(** Reads the longest prefix of digits, most significant first. *)
Fixpoint parse_digits (radix : Z) (s : string) (acc : Z) : Z :=
  match s with
  | String c s' =>
      match digit_value radix c with
      | Some d => parse_digits radix s' (acc * radix + d)
      | None => acc
      end
  | EmptyString => acc
  end.

(** [None] stands for [NaN]: there is no digit to read. *)
Definition parse_number (radix : Z) (s : string) : option Z :=
  match s with
  | String c _ =>
      match digit_value radix c with
      | Some _ => Some (parse_digits radix s 0)
      | None => None
      end
  | EmptyString => None
  end.

Definition strip_sign (s : string) : Z * string :=
  match s with
  | String "-" s' => (-1, s')
  | String "+" s' => (1, s')
  | _ => (1, s)
  end.

Definition strip_hex_prefix (s : string) : Z * string :=
  match s with
  | String "0" (String "x" s') => (16, s')
  | String "0" (String "X" s') => (16, s')
  | _ => (10, s)
  end.

(** [parseInt(string)] without a radix argument: leading white space, an
    optional sign, an optional [0x] prefix, then digits; whatever follows the
    digits is ignored. [None] is [NaN]. *)
Definition parse_unsigned (s : string) : option Z :=
  let (radix, s') := strip_hex_prefix s in
  parse_number radix s'.

Definition parseInt_string (s : string) : option Z :=
  let (sign, s') := strip_sign (trimStart s) in
  match parse_unsigned s' with
  | Some n => Some (sign * n)
  | None => None
  end.

(** The argument of [parseInt] is first converted to a string; [null] and
    [undefined] (here [None]) become the words "null" and "undefined", which
    hold no digit. *)
Definition parseInt (v : option string) : option Z :=
  match v with
  | Some s => parseInt_string s
  | None => None
  end.

(** [x || 0] on a number: [NaN] and [0] are falsy. *)
Definition or_zero (x : option Z) : Z :=
  match x with
  | Some n => n
  | None => 0
  end.

(** Truthiness of a value that is a string or [null]. *)
Definition truthy (v : option string) : bool :=
  match v with
  | Some EmptyString => false
  | Some _ => true
  | None => false
  end.

(** Strings made of decimal digits only. *)
Fixpoint all_digits (s : string) : bool :=
  match s with
  | String c s' =>
      match digit_value 10 c with
      | Some _ => all_digits s'
      | None => false
      end
  | EmptyString => true
  end.

(** What may follow a printed number without changing how [parseInt] reads
    it: nothing, or text whose first character is neither a digit nor the
    [x] of a hexadecimal prefix. *)
Definition ends_number (s : string) : bool :=
  match s with
  | String c _ =>
      match digit_value 10 c with
      | Some _ => false
      | None => negb (Ascii.eqb c "x") && negb (Ascii.eqb c "X")
      end
  | EmptyString => true
  end.

End JS.

(** ** The session timer ([part_000], class [SessionTimer]) *)
Module Timer.

Record SessionTimer := mkTimer {
  duration : Z;                     (* this.duration, in seconds *)
  remaining : Z;                    (* this.remaining *)
  isRunning : bool;                 (* this.isRunning *)
  timerInterval : option positive   (* this.timerInterval: null or a handle *)
}.

(** Text of the two spans that [init] creates inside [#sessionTimer]. *)
Record Display := mkDisplay {
  timer_minutes : string;
  timer_seconds : string
}.

(** What the timer's methods read and write: the object itself, the spans
    (absent when the page has no [#sessionTimer] element; no other element
    of the page carries their classes), the repeating callbacks the host
    still has scheduled, the next handle [setInterval] hands out (handles
    are integers greater than zero), the notifications shown so far as
    (message, type), and the number of tones played. The page is taken to
    have the notification container that [initializeNotifications] creates
    and the browser to provide [AudioContext], so that neither
    [showNotification] nor [playCompletionSound] throws. *)
Record World := mkWorld {
  timer : SessionTimer;
  display : option Display;
  intervals : gset positive;
  nextHandle : positive;
  notifications : list (string * string);
  beeps : nat
}.

Definition with_timer (t : SessionTimer) (w : World) : World :=
  mkWorld t (display w) (intervals w) (nextHandle w) (notifications w) (beeps w).

Definition set_remaining (r : Z) (w : World) : World :=
  let t := timer w in
  with_timer (mkTimer (duration t) r (isRunning t) (timerInterval t)) w.

Definition set_isRunning (b : bool) (w : World) : World :=
  let t := timer w in
  with_timer (mkTimer (duration t) (remaining t) b (timerInterval t)) w.

Definition set_timerInterval (h : option positive) (w : World) : World :=
  let t := timer w in
  with_timer (mkTimer (duration t) (remaining t) (isRunning t) h) w.

Definition showNotification (message type : string) (w : World) : World :=
  mkWorld (timer w) (display w) (intervals w) (nextHandle w)
          (notifications w ++ [(message, type)]) (beeps w).

(** [setInterval(() => this.tick(), 1000)]: schedules the callback and
    returns its handle. *)
Definition setInterval (w : World) : positive * World :=
  let h := nextHandle w in
  (h, mkWorld (timer w) (display w) ({[h]} ∪ intervals w) (Pos.succ h)
              (notifications w) (beeps w)).

(** [clearInterval(h)]: does nothing when [h] is not scheduled. *)
Definition clearInterval (h : positive) (w : World) : World :=
  mkWorld (timer w) (display w) (intervals w ∖ {[h]}) (nextHandle w)
          (notifications w) (beeps w).

Definition render (r : Z) : Display :=
  let minutes := r / 60 in          (* Math.floor(this.remaining / 60) *)
  let seconds := Z.rem r 60 in      (* this.remaining % 60 *)
  mkDisplay (JS.padStart 2 "0" (JS.toString minutes))
            (JS.padStart 2 "0" (JS.toString seconds)).

Definition updateDisplay (w : World) : World :=
  match display w with
  | Some _ =>
      mkWorld (timer w) (Some (render (remaining (timer w)))) (intervals w)
              (nextHandle w) (notifications w) (beeps w)
  | None => w
  end.

(** [init]: without the container nothing is rendered; with it the minutes
    are written as the number itself and the seconds as "00". *)
Definition init (timerContainer : bool) (w : World) : World :=
  if timerContainer then
    mkWorld (timer w)
            (Some (mkDisplay (JS.toString (duration (timer w) / 60)) "00"))
            (intervals w) (nextHandle w) (notifications w) (beeps w)
  else w.

(** [new SessionTimer(duration)] on a page whose scheduler would hand out
    [handle] next. *)
Definition new (duration : Z) (timerContainer : bool) (handle : positive) : World :=
  init timerContainer
       (mkWorld (mkTimer (duration * 60) (duration * 60) false None)
                None ∅ handle [] 0%nat).

Definition start (w : World) : World :=
  if isRunning (timer w) then w
  else
    let w1 := set_isRunning true w in
    let (h, w2) := setInterval w1 in
    let w3 := set_timerInterval (Some h) w2 in
    showNotification "Focus session started!" "success" w3.

Definition pause (w : World) : World :=
  let w1 := set_isRunning false w in
  match timerInterval (timer w1) with
  | Some h => showNotification "Session paused" "warning" (clearInterval h w1)
  | None => w1
  end.

Definition reset (w : World) : World :=
  let w1 := pause w in
  let w2 := set_remaining (duration (timer w1)) w1 in
  let w3 := updateDisplay w2 in
  showNotification "Session reset" "info" w3.

Definition playCompletionSound (w : World) : World :=
  mkWorld (timer w) (display w) (intervals w) (nextHandle w)
          (notifications w) (S (beeps w)).

Definition complete (w : World) : World :=
  let w1 := pause w in
  let w2 := showNotification "🎉 Session complete! Time for a break!" "success" w1 in
  playCompletionSound w2.

Definition tick (w : World) : World :=
  let w1 := set_remaining (remaining (timer w) - 1) w in
  let w2 := updateDisplay w1 in
  if remaining (timer w2) <=? 0 then complete w2 else w2.

(** One second of wall-clock time: the host calls [tick] only if the
    repeating callback is still scheduled. *)
Definition live (w : World) : bool := bool_decide (intervals w ≠ ∅).

Definition second (w : World) : World :=
  if live w then tick w else w.

(** What can happen to a timer: the three buttons, and a second passing. *)
Inductive Event := Start | Pause | Reset | Second.

Definition step (w : World) (e : Event) : World :=
  match e with
  | Start => start w
  | Pause => pause w
  | Reset => reset w
  | Second => second w
  end.

Definition run (w : World) (es : list Event) : World := fold_left step es w.

(** Number of ticks delivered along a run. *)
Fixpoint delivered (w : World) (es : list Event) : Z :=
  match es with
  | [] => 0
  | e :: es' =>
      (match e with
       | Second => if live w then 1 else 0
       | _ => 0
       end) + delivered (step w e) es'
  end.

(** The object and the scheduler agree: a running timer owns the one
    scheduled callback, a stopped timer has none scheduled. *)
Definition consistent (w : World) : Prop :=
  if isRunning (timer w)
  then exists h, timerInterval (timer w) = Some h /\ intervals w = {[h]}
  else intervals w = ∅.

(** The state right after construction or after [reset]. *)
Definition idle (w : World) : Prop :=
  consistent w /\ isRunning (timer w) = false /\
  remaining (timer w) = duration (timer w).

(** The timer has counted down and stopped. *)
Definition completed (w : World) : Prop :=
  isRunning (timer w) = false /\ remaining (timer w) <= 0.

(** Runs without a press on Reset. *)
Definition no_reset (es : list Event) : Prop := Forall (fun e => e <> Reset) es.

(** Runs in which Start is never pressed on a stopped timer that has
    nothing left to count. *)
Fixpoint no_restart (w : World) (es : list Event) : Prop :=
  match es with
  | [] => True
  | e :: es' =>
      (e = Start -> isRunning (timer w) = false -> 0 < remaining (timer w)) /\
      no_restart (step w e) es'
  end.

(** What holds [k] delivered ticks into a session that began in an idle
    state with [D] seconds to count and [b0] tones already played. *)
Definition in_session (D : Z) (b0 : nat) (k : Z) (w : World) : Prop :=
  consistent w /\
  0 <= k /\
  duration (timer w) = D /\
  remaining (timer w) = D - k /\
  0 <= remaining (timer w) /\
  (isRunning (timer w) = true -> 0 < remaining (timer w)) /\
  beeps w = (if (0 <? D) && (remaining (timer w) =? 0) then S b0 else b0).

(** [if (timer.isRunning) timer.pause() else timer.start()], the keyboard
    shortcut: a press on Pause or on Start, depending on the state. *)
Definition toggle (w : World) : World :=
  if isRunning (timer w) then pause w else start w.

(** A full session of the 25-minute timer, then Start pressed again on the
    stopped timer. *)
Definition full_session_then_start : list Event :=
  Start :: repeat Second 1500 ++ [Start].

(** The same, and one more second. *)
Definition restart_after_completion : list Event :=
  full_session_then_start ++ [Second].

End Timer.

(** ** Progress bars ([part_000], [updateProgressBar]) *)
Module Progress.

(** A [.progress-fill] element: its [data-activity] attribute, its inline
    [style.width] (the empty string when unset) and its text. *)
Record Bar := mkBar {
  data_activity : option string;
  bar_width : string;
  bar_text : string
}.

(** The [.overall-progress] element. *)
Record Overall := mkOverall {
  data_progress : option string;
  overall_width : string;
  overall_text : string
}.

Record Page := mkPage {
  bars : list Bar;              (* in document order *)
  overall : option Overall
}.

(** The number the code reads back from a bar: [parseInt(style.width) || 0]. *)
Definition bar_progress (b : Bar) : Z :=
  JS.or_zero (JS.parseInt (Some (bar_width b))).

(** [parseInt(overallProgress.dataset.progress) || 0]. *)
Definition overall_progress (o : Overall) : Z :=
  JS.or_zero (JS.parseInt (data_progress o)).

(** [element.style.width = n + '%']: the CSS object model takes a percentage
    that is not negative, and leaves the declaration as it was when it is
    given a negative one. *)
Definition assign_width (width : string) (n : Z) : string :=
  if n <? 0 then width else JS.toString n +:+ "%".

Definition bump_bar (b : Bar) : Bar :=
  let currentProgress := bar_progress b in
  let newProgress := Z.min (currentProgress + 25) 100 in
  mkBar (data_activity b)
        (assign_width (bar_width b) newProgress)
        (JS.toString newProgress +:+ "%").

Definition bump_overall (o : Overall) : Overall :=
  let overallCurrent := overall_progress o in
  let overallNew := Z.min (overallCurrent + 5) 100 in
  mkOverall (Some (JS.toString overallNew))
            (assign_width (overall_width o) overallNew)
            (JS.toString overallNew +:+ "%").

(** The function once the selector has resolved to the [i]-th
    [.progress-fill] element of the page, whichever that is; nothing is
    done when there is no such element. *)
Definition update_found (i : nat) (p : Page) : Page :=
  match bars p !! i with
  | Some b => mkPage (<[i := bump_bar b]> (bars p)) (bump_overall <$> overall p)
  | None => p
  end.

(** The selector [.progress-fill[data-activity="..."]] is built by pasting
    the id between double quotes. It tests the attribute against the id
    itself only if the id holds no double quote, backslash, line break or
    null character; with one of these the selector is malformed or tests
    another value. *)
Fixpoint selector_literal (activityId : string) : bool :=
  match activityId with
  | String c activityId' =>
      let n := nat_of_ascii c in
      negb ((n =? 0)%nat || (n =? 34)%nat || (n =? 92)%nat || (n =? 10)%nat ||
            (n =? 12)%nat || (n =? 13)%nat)
      && selector_literal activityId'
  | EmptyString => true
  end.

Definition matches (activityId : string) (b : Bar) : bool :=
  bool_decide (data_activity b = Some activityId).

(** The first bar, in document order, whose [data-activity] is [activityId]:
    what [document.querySelector] finds when the selector tests the
    attribute against the id itself. *)
Fixpoint querySelector (activityId : string) (bs : list Bar) : option Bar :=
  match bs with
  | [] => None
  | b :: bs' => if matches activityId b then Some b else querySelector activityId bs'
  end.

(** The bars after the element found by [querySelector] has been mutated. *)
Fixpoint bump_first (activityId : string) (bs : list Bar) : list Bar :=
  match bs with
  | [] => []
  | b :: bs' =>
      if matches activityId b then bump_bar b :: bs'
      else b :: bump_first activityId bs'
  end.

(** The sums of the function are exact on a number that is not below -2^53;
    a number above 2^53 comes out as 100 whatever its last digits are. *)
Definition read_exactly (n : Z) : bool := - 2 ^ 53 <=? n.

Definition reads_exactly (b : Bar) (o : option Overall) : bool :=
  read_exactly (bar_progress b)
  && match o with
     | Some o => read_exactly (overall_progress o)
     | None => true
     end.

(** The result is [None] where this model does not follow the browser: for
    an id that the selector does not test literally (the call may throw, or
    find the bar of another id), and for a number read below -2^53. *)
Definition updateProgressBar (activityId : string) (p : Page) : option Page :=
  if selector_literal activityId then
    match querySelector activityId (bars p) with
    | Some b =>
        if reads_exactly b (overall p) then
          Some (mkPage (bump_first activityId (bars p))
                       (match overall p with
                        | Some o => Some (bump_overall o)
                        | None => None
                        end))
        else None
    | None => Some p
    end
  else None.

(** [k] completions of the same activity, one after the other. *)
Fixpoint completions (k : nat) (activityId : string) (p : Page) : option Page :=
  match k with
  | O => Some p
  | S k' =>
      match completions k' activityId p with
      | Some p' => updateProgressBar activityId p'
      | None => None
      end
  end.

End Progress.

(** ** Local storage, moods and [TherapeuticApp] ([part_000], [part_001]) *)
Module App.

(** [localStorage]: string keys, string values; [getItem] answers [null]
    (here [None]) for a key that is not stored. *)
Definition getItem (key : string) (storage : gmap string string) : option string :=
  storage !! key.

Definition setItem (key value : string) (storage : gmap string string)
  : gmap string string :=
  <[key := value]> storage.

(** [saveMood(mood)]; [now] is [new Date().toISOString()]. *)
Definition saveMood (mood now : string) (storage : gmap string string)
  : gmap string string :=
  setItem "lastMoodTime" now (setItem "lastMood" mood storage).

(** The mood buttons of the page and the hidden input, if the page has one. *)
Record MoodButton := mkMoodButton {
  data_mood : string;
  active : bool
}.

Record MoodPage := mkMoodPage {
  moodButtons : list MoodButton;
  moodInput : option string
}.

Definition set_input (value : string) (p : MoodPage) : MoodPage :=
  mkMoodPage (moodButtons p)
             (match moodInput p with Some _ => Some value | None => None end).

(** The selector [.mood-btn[data-mood="..."]] is built by pasting the mood
    between double quotes. It tests the attribute against the mood itself
    only if the mood holds no double quote, backslash or line break; with
    one of these the selector is malformed or tests another value. *)
Fixpoint selector_literal (mood : string) : bool :=
  match mood with
  | String c mood' =>
      let n := nat_of_ascii c in
      negb ((n =? 34)%nat || (n =? 92)%nat || (n =? 10)%nat ||
            (n =? 12)%nat || (n =? 13)%nat)
      && selector_literal mood'
  | EmptyString => true
  end.

(** Adds the class [active] to the first button whose [data-mood] is [mood];
    [None] when the selector finds no button. *)
Fixpoint activate_first (mood : string) (bs : list MoodButton)
  : option (list MoodButton) :=
  match bs with
  | [] => None
  | b :: bs' =>
      if bool_decide (data_mood b = mood)
      then Some (mkMoodButton (data_mood b) true :: bs')
      else match activate_first mood bs' with
           | Some bs'' => Some (b :: bs'')
           | None => None
           end
  end.

(** What [initializeMoodSelector] does with the value it has read from
    storage. The result is [None] where the selector is not the literal
    test, which this model does not follow. *)
Definition restoreMood (lastMood : option string) (p : MoodPage) : option MoodPage :=
  match lastMood with
  | Some m =>
      if JS.truthy lastMood then
        if selector_literal m then
          match activate_first m (moodButtons p) with
          | Some bs => Some (set_input m (mkMoodPage bs (moodInput p)))
          | None => Some p
          end
        else None
      else Some p
  | None => Some p
  end.

(** The end of [initializeMoodSelector]: "Load last saved mood". *)
Definition loadLastMood (storage : gmap string string) (p : MoodPage)
  : option MoodPage :=
  let lastMood := getItem "lastMood" storage in
  restoreMood lastMood p.

(** The click handler of the [i]-th mood button, up to [saveMood]. *)
Definition clickMood (i : nat) (now : string)
    (p : MoodPage) (storage : gmap string string)
  : MoodPage * gmap string string :=
  match moodButtons p !! i with
  | Some b =>
      let cleared := map (fun b' => mkMoodButton (data_mood b') false) (moodButtons p) in
      let marked := <[i := mkMoodButton (data_mood b) true]> cleared in
      (set_input (data_mood b) (mkMoodPage marked (moodInput p)),
       saveMood (data_mood b) now storage)
  | None => (p, storage)
  end.

Record TherapeuticApp := mkApp {
  gentleMode : bool;
  highContrast : bool
}.

(** The app object, [localStorage], the class list of [document.body] and
    the gentle notifications shown so far as (message, type). *)
Record AppWorld := mkAppWorld {
  app : TherapeuticApp;
  storage : gmap string string;
  bodyClasses : gset string;
  shown : list (string * string)
}.

(** [v === 'true'] for a value read from storage. *)
Definition is_true_string (v : option string) : bool :=
  bool_decide (v = Some "true").

(** The two field initialisers of the constructor. *)
Definition constructor (storage : gmap string string) : TherapeuticApp :=
  mkApp (is_true_string (getItem "gentleMode" storage))
        (is_true_string (getItem "highContrast" storage)).

(** String conversion of a boolean, as [setItem] performs it. *)
Definition string_of_bool (b : bool) : string :=
  if b then "true" else "false".

(** [classList.toggle(name, force)]. *)
Definition classList_toggle (name : string) (force : bool) (classes : gset string)
  : gset string :=
  if force then {[name]} ∪ classes else classes ∖ {[name]}.

Definition showGentleNotification (message type : string) (w : AppWorld) : AppWorld :=
  mkAppWorld (app w) (storage w) (bodyClasses w) (shown w ++ [(message, type)]).

Definition toggleGentleMode (w : AppWorld) : AppWorld :=
  let g := negb (gentleMode (app w)) in
  let w1 := mkAppWorld (mkApp g (highContrast (app w)))
                       (setItem "gentleMode" (string_of_bool g) (storage w))
                       (classList_toggle "gentle-mode" g (bodyClasses w))
                       (shown w) in
  showGentleNotification
    (if g then "Gentle mode activated. Take it easy."
     else "Gentle mode deactivated. Proceed mindfully.")
    "info" w1.

Definition toggleHighContrast (w : AppWorld) : AppWorld :=
  let h := negb (highContrast (app w)) in
  mkAppWorld (mkApp (gentleMode (app w)) h)
             (setItem "highContrast" (string_of_bool h) (storage w))
             (classList_toggle "high-contrast" h (bodyClasses w))
             (shown w).

(** [shouldShowReminder]; [now] is [Date.now()]. A comparison with [NaN]
    is false. *)
Definition shouldShowReminder (now : Z) (storage : gmap string string) : bool :=
  let lastReminder := getItem "lastReminderTime" storage in
  if JS.truthy lastReminder then
    match JS.parseInt lastReminder with
    | Some t => 30 * 60 * 1000 <? now - t
    | None => false
    end
  else true.

Definition reminders : list string :=
  [ "Take a deep breath. You're doing great.";
    "Remember to hydrate and stretch.";
    "Progress, not perfection.";
    "It's okay to take breaks.";
    "Be kind to yourself today." ].

(** Period of the loop installed by [setupGentleReminders], in milliseconds. *)
Definition reminder_period : Z := 15 * 60 * 1000.

(** The callback of [setupGentleReminders], run at time [now]; [choice] is
    the index that [Math.floor(Math.random() * reminders.length)] yields. *)
Definition reminder_callback (now : Z) (choice : nat) (w : AppWorld) : AppWorld :=
  if shouldShowReminder now (storage w) then
    let randomReminder := nth (choice mod length reminders) reminders "" in
    showGentleNotification randomReminder "info" w
  else w.

(** The loop itself: the callback runs at [start + period], [start + 2 *
    period], ... with the choices the random source makes. *)
Fixpoint reminder_loop (start : Z) (choices : list nat) (w : AppWorld) : AppWorld :=
  match choices with
  | [] => w
  | c :: cs =>
      let now := start + reminder_period in
      reminder_loop now cs (reminder_callback now c w)
  end.

End App.

(** ** The global AJAX error handler ([main.js]) *)
Module Ajax.

(** An alert appended to the page: message, type and the delay after which
    it closes itself. *)
Record Alert := mkAlert {
  message : string;
  type : string;
  closes_after : Z
}.

(** [showNotification(message, type = 'info', duration = 3000)] of [main.js]. *)
Definition showNotification (message type : string) (duration : Z)
    (alerts : list Alert) : list Alert :=
  alerts ++ [mkAlert message type duration].

(** The handler registered with [$(document).ajaxError]; [status] is
    [jqxhr.status]. *)
Definition ajaxError (status : Z) (alerts : list Alert) : list Alert :=
  if status =? 401 then
    showNotification "Please log in to continue" "warning" 3000 alerts
  else if status =? 403 then
    showNotification "You don't have permission to do that" "danger" 3000 alerts
  else if status =? 500 then
    showNotification "Server error. Please try again later." "danger" 3000 alerts
  else alerts.

End Ajax.

(** ** Runs of the session timer, seen from the page *)
Module TimerRuns.
Import Timer.

(** Ticks delivered since the timer was created or last reset. *)
Fixpoint ticks_since_reset (w : World) (es : list Event) (acc : Z) : Z :=
  match es with
  | [] => acc
  | e :: es' =>
      ticks_since_reset (step w e) es'
        (match e with
         | Reset => 0
         | Second => if live w then acc + 1 else acc
         | _ => acc
         end)
  end.

(** The spans show the time that is left: either they hold what
    [updateDisplay] writes for the current [remaining], or they still hold
    what [init] wrote and nothing has been counted yet. *)
Definition display_in_sync (w : World) : Prop :=
  match display w with
  | None => True
  | Some shown =>
      shown = render (remaining (timer w)) \/
      (shown = mkDisplay (JS.toString (duration (timer w) / 60)) "00" /\
       remaining (timer w) = duration (timer w))
  end.

End TimerRuns.

(** ** Theme ([part_000], [initializeTheme]) *)
Module Theme.

(** The class list of [document.body], [localStorage], and the
    notifications shown so far. *)
Record Page := mkPage {
  bodyClasses : gset string;
  storage : gmap string string;
  notifications : list (string * string)
}.

(** [savedTheme || (prefersDarkScheme.matches ? 'dark' : 'light')]. *)
Definition currentTheme (prefersDark : bool) (storage : gmap string string) : string :=
  let savedTheme := App.getItem "theme" storage in
  match savedTheme with
  | Some s => if JS.truthy savedTheme then s
              else if prefersDark then "dark" else "light"
  | None => if prefersDark then "dark" else "light"
  end.

(** The first half of [initializeTheme]: apply the theme. *)
Definition initializeTheme (prefersDark : bool) (p : Page) : Page :=
  if bool_decide (currentTheme prefersDark (storage p) = "dark")
  then mkPage ({[ "dark-theme" ]} ∪ bodyClasses p) (storage p) (notifications p)
  else p.

(** [classList.toggle(name)]. *)
Definition classList_toggle (name : string) (classes : gset string) : gset string :=
  if bool_decide (name ∈ classes) then classes ∖ {[name]} else {[name]} ∪ classes.

(** The click handler of [#themeToggle]. *)
Definition toggleTheme (p : Page) : Page :=
  let classes := classList_toggle "dark-theme" (bodyClasses p) in
  let theme := if bool_decide ("dark-theme" ∈ classes) then "dark" else "light" in
  mkPage classes
         (App.setItem "theme" theme (storage p))
         (notifications p ++ [("Theme changed to " +:+ theme +:+ " mode", "success")]).

End Theme.

(** ** Settings of [TherapeuticApp] ([part_001]) *)
Module Settings.
Import App.

(** [applySettings]. *)
Definition applySettings (w : AppWorld) : AppWorld :=
  let classes1 :=
    if gentleMode (app w) then {[ "gentle-mode" ]} ∪ bodyClasses w else bodyClasses w in
  let classes2 :=
    if highContrast (app w) then {[ "high-contrast" ]} ∪ classes1 else classes1 in
  mkAppWorld (app w) (storage w) classes2 (shown w).

(** A page view: the constructor reads the flags and [init] applies them to
    the body the server sent. (The other steps of [init] touch neither the
    flags, nor the classes, nor local storage.) *)
Definition boot (storage : gmap string string) (body : gset string) : AppWorld :=
  applySettings (mkAppWorld (constructor storage) storage body []).

(** The two toggle buttons. *)
Inductive Toggle := Gentle | Contrast.

Definition press (w : AppWorld) (t : Toggle) : AppWorld :=
  match t with
  | Gentle => toggleGentleMode w
  | Contrast => toggleHighContrast w
  end.

Definition presses (w : AppWorld) (ts : list Toggle) : AppWorld := fold_left press ts w.

End Settings.

(** ** Time spent on the page ([part_000], [initializeActivityTracking]) *)
Module Activity.

Record State := mkState {
  activeTime : Z;                         (* minutes since the page loaded *)
  storage : gmap string string;
  notifications : list (string * string)
}.

Definition encouragements : list string :=
  [ "Great focus! You've been learning for a while. Consider taking a short break.";
    "Amazing dedication! Remember to stay hydrated.";
    "You're doing great! How about a quick stretch?";
    "Keep up the good work! Learning takes time and patience." ].

(** The key of the day; [today] is [new Date().toDateString()]. *)
Definition key (today : string) : string := "activeTime_" +:+ today.

(** The callback that runs every minute; [choice] is the index drawn for
    the encouragement. The sum [storedTime + 1] is the one of the code as
    long as it stays within 2^53 in absolute value (see [counts_exactly]). *)
Definition minute (s : State) (tc : string * nat) : State :=
  let (today, choice) := tc in
  let activeTime' := activeTime s + 1 in
  let storedTime := JS.or_zero (JS.parseInt (App.getItem (key today) (storage s))) in
  let storage' := App.setItem (key today) (JS.toString (storedTime + 1)) (storage s) in
  if Z.rem activeTime' 15 =? 0 then
    let randomEncouragement :=
      nth (choice mod length encouragements) encouragements "" in
    mkState activeTime' storage' (notifications s ++ [(randomEncouragement, "info")])
  else mkState activeTime' storage' (notifications s).

Definition minutes (s : State) (tcs : list (string * nat)) : State :=
  fold_left minute tcs s.

(** The page as loaded. *)
Definition loaded (storage : gmap string string) : State := mkState 0 storage [].

(** The number a later reader finds stored for the day. *)
Definition stored (today : string) (s : State) : Z :=
  JS.or_zero (JS.parseInt (App.getItem (key today) (storage s))).

(** The numbers of [runs] runs on one day are exact, and written in plain
    decimal, when the number stored at first is not below -2^53 and the
    last sum not above 2^53. *)
Definition counts_exactly (today : string) (s : State) (runs : nat) : bool :=
  (- 2 ^ 53 <=? stored today s) && (stored today s + Z.of_nat runs <=? 2 ^ 53).

End Activity.

(** ** The breathing exercise ([part_000], [initializeBreathingExercise]) *)
Module Breathing.

(** The two closure variables, the timeouts the host still has scheduled,
    the next handle, the button text, the animation of the circle, the
    number of [.breathing-instructions] elements in the document, and the
    notifications shown so far. *)
Record State := mkState {
  isBreathing : bool;
  breathInterval : option positive;
  pending : gset positive;
  nextHandle : positive;
  buttonText : string;
  animation : string;
  instructions : nat;
  notifications : list (string * string)
}.

(** The page as loaded, with no instructions in it. *)
Definition loaded (text : string) (handle : positive) : State :=
  mkState false None ∅ handle text "" 0 [].

Definition stopBreathingExercise (s : State) : State :=
  mkState false (breathInterval s)
          (match breathInterval s with
           | Some h => pending s ∖ {[h]}          (* clearTimeout *)
           | None => pending s
           end)
          (nextHandle s)
          "Start Breathing Exercise"
          "none"
          (Nat.pred (instructions s))             (* the first one, if any *)
          (notifications s ++
           [("Great job! Take a moment to notice how you feel.", "success")]).

(** A click on [#startBreathing]. *)
Definition click (s : State) : State :=
  if isBreathing s then stopBreathingExercise s
  else
    let h := nextHandle s in
    mkState true (Some h) ({[h]} ∪ pending s) (Pos.succ h)
            "Stop Breathing Exercise"
            "breathe 4s infinite ease-in-out"
            (S (instructions s))
            (notifications s).

(** The timeout with handle [h] comes due: a timeout that was cleared does
    not run, one that runs is no longer scheduled. *)
Definition timeout (h : positive) (s : State) : State :=
  if bool_decide (h ∈ pending s) then
    stopBreathingExercise
      (mkState (isBreathing s) (breathInterval s) (pending s ∖ {[h]}) (nextHandle s)
               (buttonText s) (animation s) (instructions s) (notifications s))
  else s.

Inductive Event := Click | Timeout (h : positive).

Definition step (s : State) (e : Event) : State :=
  match e with
  | Click => click s
  | Timeout h => timeout h s
  end.

Definition run (s : State) (es : list Event) : State := fold_left step es s.

(** The exercise, its timeout and its instructions go together. *)
Definition coherent (s : State) : Prop :=
  if isBreathing s
  then instructions s = 1%nat /\
       exists h, breathInterval s = Some h /\ pending s = {[h]}
  else instructions s = 0%nat /\ pending s = ∅.

End Breathing.

(** ** Gentle form validation ([part_001], [validateForm]) *)
Module Forms.

(** White space and line terminators that [String.prototype.trim] removes,
    as UTF-16 code units. *)
Definition is_white_space (u : Z) : bool :=
  ((9 <=? u) && (u <=? 13)) || (u =? 32) || (u =? 160) || (u =? 5760) ||
  ((8192 <=? u) && (u <=? 8202)) || (u =? 8232) || (u =? 8233) ||
  (u =? 8239) || (u =? 8287) || (u =? 12288) || (u =? 65279).

Fixpoint trimStart (s : list Z) : list Z :=
  match s with
  | u :: s' => if is_white_space u then trimStart s' else s
  | [] => []
  end.

Definition trimEnd (s : list Z) : list Z := rev (trimStart (rev s)).

(** [String.prototype.trim], on the code units of the string. *)
Definition trim (s : list Z) : list Z := trimEnd (trimStart s).

(** One of the elements that [form.querySelectorAll('[required]')] returns:
    its value, whether it carries the class [form-error], and the text of
    the [.field-message] element that follows it, if one does. *)
Record Field := mkField {
  value : list Z;
  form_error : bool;
  message : option string
}.

(** [!field.value.trim()]: the empty string is the falsy one. *)
Definition blank (f : Field) : bool :=
  match trim (value f) with
  | [] => true
  | _ => false
  end.

(** The variables of the loop over the required fields: [isValid],
    [firstInvalid] (as a position in the list), the position reached, and
    the fields as the loop leaves them. *)
Record Loop := mkLoop {
  isValid : bool;
  firstInvalid : option nat;
  position : nat;
  visited : list Field
}.

Definition visit (l : Loop) (f : Field) : Loop :=
  if blank f then
    mkLoop false
           (match firstInvalid l with
            | Some i => Some i
            | None => Some (position l)
            end)
           (S (position l))
           (visited l ++ [mkField (value f) true (Some "This field is gently required")])
  else
    mkLoop (isValid l) (firstInvalid l) (S (position l))
           (visited l ++ [mkField (value f) false None]).

(** What a submit leaves behind: the fields, whether the submission was
    prevented, the field that was given the focus, and the notifications. *)
Record Outcome := mkOutcome {
  fields : list Field;
  defaultPrevented : bool;
  focused : option nat;
  shown : list (string * string)
}.

Definition validateForm (requiredFields : list Field) (shown : list (string * string))
  : Outcome :=
  let l := fold_left visit requiredFields (mkLoop true None 0 []) in
  if isValid l then mkOutcome (visited l) false None shown
  else mkOutcome (visited l) true (firstInvalid l)
                 (shown ++ [("Please fill in all required fields gently", "info")]).

End Forms.

(** ** Autosaving the check-in draft ([main.js], [initCheckinForm], [saveDraft]) *)
Module Draft.

(** The closure variable [autosaveTimer], the timeouts the host still has
    scheduled, the next handle, [localStorage] and the alerts on the page. *)
Record State := mkState {
  autosaveTimer : option positive;
  pending : gset positive;
  nextHandle : positive;
  storage : gmap string string;
  alerts : list Ajax.Alert
}.

Definition loaded (storage : gmap string string) (handle : positive) : State :=
  mkState None ∅ handle storage [].

(** [saveDraft]; [formData] is [$('form').serialize()] at that moment. *)
Definition saveDraft (formData : string) (s : State) : State :=
  mkState (autosaveTimer s) (pending s) (nextHandle s)
          (App.setItem "checkinDraft" formData (storage s))
          (Ajax.showNotification "Draft saved" "info" 1500 (alerts s)).

(** The [input] handler of the text areas: [clearTimeout(autosaveTimer)],
    which does nothing for [undefined] or a timeout that already ran, then
    a new timeout of two seconds. *)
Definition input (s : State) : State :=
  let cleared :=
    match autosaveTimer s with
    | Some h => pending s ∖ {[h]}
    | None => pending s
    end in
  let h := nextHandle s in
  mkState (Some h) ({[h]} ∪ cleared) (Pos.succ h) (storage s) (alerts s).

(** The timeout with handle [h] comes due. *)
Definition timeout (h : positive) (formData : string) (s : State) : State :=
  if bool_decide (h ∈ pending s) then
    saveDraft formData
      (mkState (autosaveTimer s) (pending s ∖ {[h]}) (nextHandle s)
               (storage s) (alerts s))
  else s.

Inductive Event := Input | Timeout (h : positive) (formData : string).

Definition step (s : State) (e : Event) : State :=
  match e with
  | Input => input s
  | Timeout h formData => timeout h formData s
  end.

Definition run (s : State) (es : list Event) : State := fold_left step es s.

Definition is_input (e : Event) : bool :=
  match e with
  | Input => true
  | Timeout _ _ => false
  end.

(** At most one timeout is scheduled, and it is the one last started. *)
Definition one_pending (s : State) : Prop :=
  pending s = ∅ \/ exists k, autosaveTimer s = Some k /\ pending s = {[k]}.

End Draft.

(** ** The scroll reminder ([main.js], [initGentleReminders]) *)
Module Scroll.

Record State := mkState {
  lastScrollReminder : Z;
  alerts : list Ajax.Alert
}.

Definition loaded : State := mkState 0 [].

(** The [scroll] handler; [now] is [Date.now()] and [scrollTop] is
    [$(window).scrollTop()]. *)
Definition scroll (s : State) (ev : Z * Z) : State :=
  let (now, scrollTop) := ev in
  if 5 * 60 * 1000 <? now - lastScrollReminder s then
    if 500 <? scrollTop then
      mkState now
              (Ajax.showNotification
                 "You've been scrolling for a while. Consider taking a break."
                 "warning" 3000 (alerts s))
    else s
  else s.

Definition scrolls (s : State) (evs : list (Z * Z)) : State := fold_left scroll evs s.

(** The times, among those of the events, at which a reminder appeared. *)
Fixpoint shown_at (s : State) (evs : list (Z * Z)) : list Z :=
  match evs with
  | [] => []
  | ev :: evs' =>
      let s' := scroll s ev in
      (if (length (alerts s) <? length (alerts s'))%nat then [ev.1] else [])
      ++ shown_at s' evs'
  end.

(** Each time in the list is more than [gap] after the one before it, the
    first more than [gap] after [from]. *)
Fixpoint spaced (gap from : Z) (times : list Z) : Prop :=
  match times with
  | [] => True
  | t :: times' => gap < t - from /\ spaced gap t times'
  end.

End Scroll.

(** ** Setting up the progress bars ([part_000], [initializeProgressBars]) *)
Module ProgressInit.
Import Progress.

(** A [.progress-fill] element with its [data-progress] attribute and the
    [.progress-text] spans that have been appended to its parent for it. *)
Record Fill := mkFill {
  fill_progress : option string;
  bar : Bar;
  labels : list string
}.

(** [bar.dataset.progress || '0']. *)
Definition targetWidth (f : Fill) : string :=
  match fill_progress f with
  | Some s => if JS.truthy (Some s) then s else "0"
  | None => "0"
  end.

(** The attribute values this model follows: a whole number of at most six
    digits, written as [toString] writes it. The browser gives the width
    back digit for digit for these. *)
Definition whole_percentage (s : string) : option Z :=
  match JS.parseInt_string s with
  | Some n =>
      if String.eqb (JS.toString n) s && (Z.abs n <? 1000000) then Some n
      else None
  | None => None
  end.

(** The element once the loop has passed and its timeout of 300 ms has
    run; [None] for an attribute this model does not follow. The label is
    written whatever the number is; the width is taken unless the number is
    negative. *)
Definition initializeProgressBar (f : Fill) : option Fill :=
  match whole_percentage (targetWidth f) with
  | Some n =>
      Some (mkFill (fill_progress f)
                   (mkBar (data_activity (bar f))
                          (assign_width (bar_width (bar f)) n)
                          (bar_text (bar f)))
                   (labels f ++ [targetWidth f +:+ "%"]))
  | None => None
  end.

Definition initializeProgressBars (fs : list Fill) : option (list Fill) :=
  mapM initializeProgressBar fs.

End ProgressInit.

(** ** Coming back to the tab ([part_001], [visibilitychange] handler) *)
Module Visibility.

(** [window.wasAway] (unset, hence falsy, when the page loads) and the
    gentle notifications shown so far; the app object exists. *)
Record State := mkState {
  wasAway : bool;
  shown : list (string * string)
}.

Definition loaded : State := mkState false [].

(** The event with [document.hidden] true, and with it false. *)
Inductive Event := Hidden | Visible.

Definition step (s : State) (e : Event) : State :=
  match e with
  | Hidden => mkState true (shown s)
  | Visible =>
      if wasAway s then
        mkState false
                (shown s ++ [("Welcome back. Take a moment to re-center.", "info")])
      else s
  end.

Definition run (s : State) (es : list Event) : State := fold_left step es s.

(** The number of events at which the tab becomes visible directly after an
    event at which it was hidden; [hidden] tells whether the event before
    the list was of the latter kind. *)
Fixpoint returns (hidden : bool) (es : list Event) : nat :=
  match es with
  | [] => 0
  | Hidden :: es' => returns true es'
  | Visible :: es' => (if hidden then 1 else 0) + returns false es'
  end.

End Visibility.

(** * Properties of the session timer *)
Section TimerFacts.
Import Timer.

Implicit Types (w : World) (es : list Event).

(** Opens a world into its fields, so that the methods compute on it. *)
Ltac open_world w :=
  let D := fresh "D" in let r := fresh "r" in let b := fresh "running" in
  let ti := fresh "ti" in let dsp := fresh "dsp" in
  destruct w as [[D r b ti] dsp ? ? ? ?]; simpl in *.

Lemma start_fields w :
  duration (timer (start w)) = duration (timer w) /\
  remaining (timer (start w)) = remaining (timer w) /\
  display (start w) = display w /\
  beeps (start w) = beeps w.
Proof. open_world w. unfold start; simpl. by destruct running. Qed.

Lemma pause_fields w :
  duration (timer (pause w)) = duration (timer w) /\
  remaining (timer (pause w)) = remaining (timer w) /\
  isRunning (timer (pause w)) = false /\
  timerInterval (timer (pause w)) = timerInterval (timer w) /\
  display (pause w) = display w /\
  nextHandle (pause w) = nextHandle w /\
  beeps (pause w) = beeps w.
Proof. open_world w. unfold pause; simpl. by destruct ti. Qed.

Lemma pause_intervals w :
  consistent w -> intervals (pause w) = ∅.
Proof.
  open_world w. unfold consistent, pause; simpl.
  destruct running.
  - intros (h & -> & ->); simpl. apply difference_diag_L.
  - intros ->. destruct ti; simpl; [apply empty_difference_L | done].
Qed.

Lemma consistent_pause w : consistent w -> consistent (pause w).
Proof.
  intros Hc. unfold consistent.
  destruct (pause_fields w) as (_ & _ & -> & _). by apply pause_intervals.
Qed.

Lemma consistent_start w : consistent w -> consistent (start w).
Proof.
  open_world w. unfold consistent, start; simpl.
  destruct running; simpl; [done |].
  intros ->. eexists. split; [done | apply union_empty_r_L].
Qed.

Lemma consistent_updateDisplay w : consistent w -> consistent (updateDisplay w).
Proof. open_world w. unfold updateDisplay; simpl. by destruct dsp. Qed.

Lemma consistent_reset w : consistent w -> consistent (reset w).
Proof.
  intros Hc. pose proof (pause_intervals w Hc) as Hi.
  pose proof (pause_fields w) as (_ & _ & Hr & _).
  unfold reset. destruct (pause w) as [[D r b ti] dsp ivs nh ns bp]; simpl in *.
  subst. unfold consistent, updateDisplay; simpl. by destruct dsp.
Qed.

Lemma live_consistent w :
  consistent w -> live w = isRunning (timer w).
Proof.
  open_world w. unfold consistent, live; simpl. destruct running.
  - intros (h & _ & ->). apply bool_decide_eq_true, non_empty_singleton_L.
  - intros ->. by apply bool_decide_eq_false; intros [].
Qed.

Lemma remaining_updateDisplay w :
  timer (updateDisplay w) = timer w /\ intervals (updateDisplay w) = intervals w /\
  beeps (updateDisplay w) = beeps w /\ notifications (updateDisplay w) = notifications w /\
  nextHandle (updateDisplay w) = nextHandle w.
Proof. unfold updateDisplay. by destruct (display w). Qed.

(** A tick that leaves something to count only decrements and redraws. *)
Lemma tick_counting w :
  1 < remaining (timer w) ->
  tick w = updateDisplay (set_remaining (remaining (timer w) - 1) w).
Proof.
  intros Hr. unfold tick.
  destruct (remaining_updateDisplay (set_remaining (remaining (timer w) - 1) w)) as (-> & _).
  simpl. destruct (Z.leb_spec (remaining (timer w) - 1) 0); [lia | done].
Qed.

(** A tick that reaches zero (or starts at or below it) also completes. *)
Lemma tick_completing w :
  remaining (timer w) <= 1 ->
  tick w = complete (updateDisplay (set_remaining (remaining (timer w) - 1) w)).
Proof.
  intros Hr. unfold tick.
  destruct (remaining_updateDisplay (set_remaining (remaining (timer w) - 1) w)) as (-> & _).
  simpl. destruct (Z.leb_spec (remaining (timer w) - 1) 0); [done | lia].
Qed.

Lemma complete_fields w :
  duration (timer (complete w)) = duration (timer w) /\
  remaining (timer (complete w)) = remaining (timer w) /\
  isRunning (timer (complete w)) = false /\
  display (complete w) = display w /\
  beeps (complete w) = S (beeps w).
Proof.
  destruct (pause_fields w) as (Hd & Hr & Hrun & _ & Hdsp & _ & Hb).
  unfold complete; simpl. by rewrite Hd, Hr, Hrun, Hdsp, Hb.
Qed.

Lemma complete_intervals w : consistent w -> intervals (complete w) = ∅.
Proof. intros Hc. unfold complete; simpl. by apply pause_intervals. Qed.

Lemma consistent_set_remaining r w : consistent w -> consistent (set_remaining r w).
Proof. by open_world w. Qed.

Lemma consistent_complete w : consistent w -> consistent (complete w).
Proof.
  intros Hc. unfold consistent.
  destruct (complete_fields w) as (_ & _ & -> & _). by apply complete_intervals.
Qed.

Lemma consistent_tick w : consistent w -> consistent (tick w).
Proof.
  intros Hc.
  assert (consistent (updateDisplay (set_remaining (remaining (timer w) - 1) w)))
    by by apply consistent_updateDisplay, consistent_set_remaining.
  destruct (Z.le_gt_cases (remaining (timer w)) 1).
  - rewrite tick_completing by done. by apply consistent_complete.
  - by rewrite tick_counting.
Qed.

Lemma in_session_step D b0 k w e :
  in_session D b0 k w -> e <> Reset ->
  (e = Start -> isRunning (timer w) = false -> 0 < remaining (timer w)) ->
  in_session D b0 (k + delivered w [e]) (step w e).
Proof.
  intros (Hc & Hk & HD & Hr & H0 & Hrun & Hb) Hreset Hstart.
  pose proof (live_consistent w Hc) as Hlive.
  destruct e; simpl; try done.
  - (* Start *)
    rewrite Z.add_0_r.
    pose proof (consistent_start w Hc) as Hc'.
    destruct (start_fields w) as (Hd' & Hr' & _ & Hb').
    unfold in_session. rewrite Hd', Hr', Hb'. repeat split; try done.
    intros _. destruct (isRunning (timer w)) eqn:E; auto.
  - (* Pause *)
    rewrite Z.add_0_r.
    pose proof (consistent_pause w Hc) as Hc'.
    destruct (pause_fields w) as (Hd' & Hr' & Hrun' & _ & _ & _ & Hb').
    unfold in_session. rewrite Hd', Hr', Hb', Hrun'. repeat split; done.
  - (* Second *)
    unfold second. rewrite Hlive in *.
    destruct (isRunning (timer w)) eqn:E.
    + specialize (Hrun eq_refl).
      pose proof (consistent_tick w Hc) as Hc'.
      set (w1 := updateDisplay (set_remaining (remaining (timer w) - 1) w)) in *.
      assert (Hw1 : timer w1 = timer (set_remaining (remaining (timer w) - 1) w)
                    /\ beeps w1 = beeps w).
      { destruct (remaining_updateDisplay
                    (set_remaining (remaining (timer w) - 1) w)) as (? & _ & ? & _).
        done. }
      destruct Hw1 as [Ht1 Hb1].
      destruct (Z.le_gt_cases (remaining (timer w)) 1) as [Hle | Hgt].
      * assert (Hone : remaining (timer w) = 1) by lia.
        rewrite tick_completing in * by done. fold w1 in Hc' |- *.
        destruct (complete_fields w1) as (Hd' & Hr' & Hrun' & _ & Hb').
        unfold in_session. rewrite Hd', Hr', Hrun', Hb', Hb1, Ht1; simpl.
        rewrite Hone, Hb in *. repeat split; try done; try lia.
        replace (0 <? D) with true by (symmetry; apply Z.ltb_lt; lia).
        done.
      * rewrite tick_counting in * by done. fold w1 in Hc' |- *.
        unfold in_session. rewrite Hb1, Ht1; simpl.
        repeat split; try done; try lia.
        rewrite Hb.
        replace (remaining (timer w) =? 0) with false by (symmetry; apply Z.eqb_neq; lia).
        replace (remaining (timer w) - 1 =? 0) with false by (symmetry; apply Z.eqb_neq; lia).
        done.
    + rewrite Z.add_0_r. repeat split; try done. by rewrite E.
Qed.

Lemma in_session_run D b0 es : forall k w,
  in_session D b0 k w -> no_reset es -> no_restart w es ->
  in_session D b0 (k + delivered w es) (run w es).
Proof.
  induction es as [| e es IH]; intros k w Hs Hnr Hns; simpl.
  - by rewrite Z.add_0_r.
  - inversion Hnr as [| ? ? He Hes]; subst. destruct Hns as [Hst Hns].
    pose proof (in_session_step D b0 k w e Hs He Hst) as Hs'.
    simpl in Hs'. rewrite Z.add_0_r in Hs'.
    rewrite Z.add_assoc. by apply IH.
Qed.

Lemma idle_in_session w :
  idle w -> 0 <= duration (timer w) ->
  in_session (duration (timer w)) (beeps w) 0 w.
Proof.
  intros (Hc & Hrun & Hr) HD. unfold in_session.
  rewrite Hr, Hrun. repeat split; try done; try lia.
  destruct (Z.ltb_spec 0 (duration (timer w))); simpl; [| done].
  by replace (duration (timer w) =? 0) with false by (symmetry; apply Z.eqb_neq; lia).
Qed.

Lemma consistent_step w e : consistent w -> consistent (step w e).
Proof.
  intros Hc. destruct e; simpl.
  - by apply consistent_start.
  - by apply consistent_pause.
  - by apply consistent_reset.
  - unfold second. destruct (live w); [by apply consistent_tick | done].
Qed.

Lemma consistent_run es : forall w, consistent w -> consistent (run w es).
Proof.
  induction es as [| e es IH]; intros w Hc; simpl; [done |].
  by apply IH, consistent_step.
Qed.

Lemma consistent_new d c h : consistent (new d c h).
Proof. unfold new, init, consistent. by destruct c. Qed.

(** A fresh timer is idle, and so is any timer after [reset]. *)
Lemma idle_new d c h : idle (new d c h).
Proof.
  split; [apply consistent_new |]. unfold new, init. by destruct c.
Qed.

Lemma reset_fields w :
  duration (timer (reset w)) = duration (timer w) /\
  remaining (timer (reset w)) = duration (timer w) /\
  isRunning (timer (reset w)) = false /\
  display (reset w) = (fun _ => render (duration (timer w))) <$> display w /\
  beeps (reset w) = beeps w.
Proof.
  destruct (pause_fields w) as (Hd & _ & Hrun & _ & Hdsp & _ & Hb).
  unfold reset. destruct (pause w) as [[D r b ti] dsp ivs nh ns bp]; simpl in *.
  subst. unfold updateDisplay; simpl. by destruct (display w).
Qed.

Lemma reset_intervals w : consistent w -> intervals (reset w) = ∅.
Proof.
  intros Hc. pose proof (pause_intervals w Hc) as Hi.
  unfold reset. destruct (pause w) as [[D r b ti] dsp ivs nh ns bp]; simpl in *.
  subst. unfold updateDisplay; simpl. by destruct dsp.
Qed.

Lemma idle_reset w : consistent w -> idle (reset w).
Proof.
  intros Hc. destruct (reset_fields w) as (Hd & Hr & Hrun & _).
  repeat split; [by apply consistent_reset | done | by rewrite Hd, Hr].
Qed.

(** Time passing changes nothing while no callback is scheduled. *)
Lemma seconds_when_stopped n w :
  intervals w = ∅ -> run w (repeat Second n) = w.
Proof.
  intros Hi. induction n as [| n IH]; simpl; [done |].
  unfold second, live. rewrite Hi.
  rewrite bool_decide_eq_false_2 by (by intros []). done.
Qed.

Lemma delivered_nonneg es : forall w, 0 <= delivered w es.
Proof.
  induction es as [| e es IH]; intros w; simpl; [done |].
  specialize (IH (step w e)). destruct e; try lia. destruct (live w); lia.
Qed.

(** In a session (no Reset, no Start on a stopped timer that has run out)
    the counter is the duration less the ticks delivered, it stays between
    zero and the duration, and the tone has sounded iff it reached zero. *)
Lemma countdown_in_session w es :
  idle w -> 0 <= duration (timer w) -> no_reset es -> no_restart w es ->
  remaining (timer (run w es)) = duration (timer w) - delivered w es /\
  remaining (timer (run w es)) = Z.max 0 (duration (timer w) - delivered w es) /\
  0 <= remaining (timer (run w es)) <= duration (timer w).
Proof.
  intros Hidle HD Hnr Hns.
  pose proof (in_session_run _ _ es 0 w (idle_in_session w Hidle HD) Hnr Hns)
    as (_ & _ & _ & Hr & H0 & _).
  pose proof (delivered_nonneg es w). simpl in Hr. lia.
Qed.

Lemma session_completes_once w es :
  idle w -> 0 < duration (timer w) -> no_reset es -> no_restart w es ->
  (0 < remaining (timer (run w es)) /\ beeps (run w es) = beeps w) \/
  (completed (run w es) /\ remaining (timer (run w es)) = 0 /\
   beeps (run w es) = S (beeps w) /\ intervals (run w es) = ∅ /\
   forall n, run (run w es) (repeat Second n) = run w es).
Proof.
  intros Hidle HD Hnr Hns.
  assert (HD' : 0 <= duration (timer w)) by lia.
  pose proof (in_session_run _ _ es 0 w (idle_in_session w Hidle HD') Hnr Hns)
    as (Hc & _ & _ & Hr & H0 & Hrun & Hb).
  replace (0 <? duration (timer w)) with true in Hb by (symmetry; apply Z.ltb_lt; lia).
  simpl in Hb.
  destruct (Z.eqb_spec (remaining (timer (run w es))) 0) as [Hz | Hnz].
  - right. assert (Hstop : isRunning (timer (run w es)) = false).
    { destruct (isRunning (timer (run w es))); [specialize (Hrun eq_refl); lia | done]. }
    assert (Hi : intervals (run w es) = ∅).
    { unfold consistent in Hc. by rewrite Hstop in Hc. }
    repeat split; try done; [lia |]. intros n. by apply seconds_when_stopped.
  - left. split; [lia | done].
Qed.

(** Seconds that pass while the timer is paused do not count. *)
Example paused_seconds_do_not_count :
  delivered (new 25 true 1) [Start; Second; Pause; Second; Start; Second] = 2 /\
  remaining (timer (run (new 25 true 1) [Start; Second; Pause; Second; Start; Second]))
  = duration (timer (new 25 true 1))
    - delivered (new 25 true 1) [Start; Second; Pause; Second; Start; Second].
Proof.
  split; [by vm_compute |].
  apply countdown_in_session.
  - apply idle_new.
  - by vm_compute.
  - repeat constructor; discriminate.
  - cbn [no_restart]. repeat split; intros; try discriminate; by vm_compute.
Qed.
Lemma no_reset_restart_after_completion : no_reset restart_after_completion.
Proof.
  unfold restart_after_completion, full_session_then_start, no_reset.
  apply Forall_app_2; [| by repeat constructor].
  apply Forall_cons_2; [done |].
  apply Forall_app_2; [| by repeat constructor].
  apply List.Forall_forall. intros e He. by rewrite (repeat_spec _ _ _ He).
Qed.

(** [C1] (the code departs from the specification). The specification has
    [n] ticks delivered while running leave [max(0, duration - n)] seconds,
    always within [0 .. duration]. On the 25-minute timer that is started,
    runs its 1500 seconds, and is started again, the host delivers a tick
    number 1501 while the timer is running: [remaining] is then -1, outside
    the range, and the spans read "-1" and "-1". *)
Theorem tick_after_completion_goes_negative :
  isRunning (timer (run (new 25 true 1) full_session_then_start)) = true /\
  live (run (new 25 true 1) full_session_then_start) = true /\
  delivered (new 25 true 1) restart_after_completion = 1501 /\
  duration (timer (run (new 25 true 1) restart_after_completion)) = 1500 /\
  remaining (timer (run (new 25 true 1) restart_after_completion)) = -1 /\
  Z.max 0 (1500 - 1501) = 0 /\
  display (run (new 25 true 1) restart_after_completion) = Some (mkDisplay "-1" "-1").
Proof. vm_compute. repeat split. Qed.

(** [C2] (the code departs from the specification). The specification has
    the timer complete exactly once on reaching zero, with no tick after
    that. In the same run, which has no Reset, tick 1500 completes the
    session and clears the callback; the second Start schedules a new one,
    and the tick that follows completes the session again: two tones, two
    completion notifications. *)
Theorem completion_fires_again_after_restart :
  no_reset restart_after_completion /\
  remaining (timer (run (new 25 true 1) (Start :: repeat Second 1500))) = 0 /\
  beeps (run (new 25 true 1) (Start :: repeat Second 1500)) = 1%nat /\
  intervals (run (new 25 true 1) (Start :: repeat Second 1500)) = ∅ /\
  live (run (new 25 true 1) full_session_then_start) = true /\
  beeps (run (new 25 true 1) restart_after_completion) = 2%nat /\
  filter (fun n => n.1 = "🎉 Session complete! Time for a break!")
         (notifications (run (new 25 true 1) restart_after_completion))
  = [("🎉 Session complete! Time for a break!", "success");
     ("🎉 Session complete! Time for a break!", "success")].
Proof.
  split; [apply no_reset_restart_after_completion | by vm_compute].
Qed.

(** The shortcut adds no behaviour of its own. *)
Lemma toggle_is_pause_or_start w :
  toggle w = step w (if isRunning (timer w) then Pause else Start).
Proof. unfold toggle. by destruct (isRunning (timer w)). Qed.

Lemma tick_remaining w :
  remaining (timer (tick w)) = remaining (timer w) - 1 /\
  duration (timer (tick w)) = duration (timer w).
Proof.
  set (w1 := updateDisplay (set_remaining (remaining (timer w) - 1) w)).
  assert (Ht : timer w1 = timer (set_remaining (remaining (timer w) - 1) w))
    by apply remaining_updateDisplay.
  destruct (Z.le_gt_cases (remaining (timer w)) 1).
  - rewrite tick_completing by done. fold w1.
    destruct (complete_fields w1) as (-> & -> & _). by rewrite Ht.
  - rewrite tick_counting by done. fold w1. by rewrite Ht.
Qed.

Lemma duration_step w e : duration (timer (step w e)) = duration (timer w).
Proof.
  destruct e; simpl.
  - apply start_fields.
  - apply pause_fields.
  - apply reset_fields.
  - unfold second. destruct (live w); [apply tick_remaining | done].
Qed.

Lemma duration_run es : forall w, duration (timer (run w es)) = duration (timer w).
Proof.
  induction es as [| e es IH]; intros w; simpl; [done |].
  by rewrite IH, duration_step.
Qed.

Lemma run_app es1 es2 w : run w (es1 ++ es2) = run (run w es1) es2.
Proof. apply fold_left_app. Qed.

Lemma repeat_snoc {A} (x : A) n : repeat x (S n) = (repeat x n ++ [x])%list.
Proof. induction n as [| n IH]; simpl in *; [done | by rewrite <- IH]. Qed.

(** A started timer left alone: [n] seconds after Start on an idle timer
    with something to count, [max(0, duration - n)] seconds remain, and the
    timer runs exactly while that is positive. *)
Lemma uninterrupted_countdown w (n : nat) :
  idle w -> 0 < duration (timer w) ->
  consistent (run (start w) (repeat Second n)) /\
  duration (timer (run (start w) (repeat Second n))) = duration (timer w) /\
  remaining (timer (run (start w) (repeat Second n)))
  = Z.max 0 (duration (timer w) - Z.of_nat n) /\
  isRunning (timer (run (start w) (repeat Second n)))
  = (Z.of_nat n <? duration (timer w)).
Proof.
  intros (Hc & Hrun & Hr) HD. induction n as [| n (IHc & IHd & IHr & IHrun)].
  - simpl run. destruct (start_fields w) as (Hd' & Hr' & _).
    split; [by apply consistent_start |]. split; [done |]. split; [lia |].
    unfold start. rewrite Hrun. simpl.
    symmetry. apply Z.ltb_lt. lia.
  - rewrite repeat_snoc, run_app. simpl run.
    set (v := run (start w) (repeat Second n)) in *.
    unfold second. rewrite (live_consistent v IHc), IHrun.
    destruct (Z.ltb_spec (Z.of_nat n) (duration (timer w))) as [Hlt | Hge].
    + destruct (tick_remaining v) as [Htr Htd].
      split; [by apply consistent_tick |]. split; [by rewrite Htd |].
      split; [rewrite Htr, IHr; lia |].
      destruct (Z.le_gt_cases (remaining (timer v)) 1) as [Hle | Hgt].
      * rewrite tick_completing by done.
        destruct (complete_fields
                    (updateDisplay (set_remaining (remaining (timer v) - 1) v)))
          as (_ & _ & -> & _).
        symmetry. apply Z.ltb_ge. lia.
      * rewrite tick_counting by done.
        destruct (remaining_updateDisplay (set_remaining (remaining (timer v) - 1) v))
          as (-> & _).
        simpl. rewrite IHrun. symmetry. apply Z.ltb_lt. lia.
    + split; [done |]. split; [done |]. split; [rewrite IHr; lia |].
      rewrite IHrun. symmetry. apply Z.ltb_ge. lia.
Qed.
(** [C3] [reset()] in any state the timer can be in (any state reached from
    a fresh timer by presses on Start, Pause and Reset and by seconds
    passing): afterwards no callback is scheduled, so time passing changes
    nothing; [remaining] equals [duration]; [isRunning] is false; and the
    spans, when the page has them, show the full duration. *)
Theorem reset_from_any_state d c h es :
  let w := run (new d c h) es in
  remaining (timer (reset w)) = duration (timer (reset w)) /\
  duration (timer (reset w)) = d * 60 /\
  isRunning (timer (reset w)) = false /\
  intervals (reset w) = ∅ /\
  (forall n, run (reset w) (repeat Second n) = reset w) /\
  display (reset w) = (fun _ => render (d * 60)) <$> display w.
Proof.
  intros w.
  assert (Hc : consistent w) by apply consistent_run, consistent_new.
  assert (Hd : duration (timer w) = d * 60).
  { unfold w. rewrite duration_run. unfold new, init. by destruct c. }
  destruct (reset_fields w) as (Hd' & Hr & Hrun & Hdsp & _).
  pose proof (reset_intervals w Hc) as Hi.
  rewrite Hd', Hr, Hdsp, Hd. repeat split; try done.
  intros n. by apply seconds_when_stopped.
Qed.

(** What [start()] leaves alone, and what it shows. *)
Lemma start_frame v :
  remaining (timer (start v)) = remaining (timer v) /\
  duration (timer (start v)) = duration (timer v) /\
  display (start v) = display v /\
  beeps (start v) = beeps v /\
  notifications (start v)
  = (notifications v ++
     if isRunning (timer v) then [] else [("Focus session started!", "success")])%list.
Proof.
  open_world v. unfold start; simpl.
  destruct running; simpl; rewrite ?app_nil_r; done.
Qed.

(** [C4] [pause()] then [start()] resumes from the paused value: neither
    call touches [remaining], [duration], the spans or the tone count;
    afterwards the timer is running on exactly one freshly scheduled
    callback, and the next tick counts down from the paused value. [start()]
    alone never changes [remaining] or [duration] either: in the object it
    writes [isRunning] and [timerInterval] only, and its one other effect is
    the notification it shows when it does start the timer. *)
Theorem pause_then_start_resumes w :
  consistent w ->
  let w' := start (pause w) in
  remaining (timer w') = remaining (timer w) /\
  duration (timer w') = duration (timer w) /\
  display w' = display w /\
  beeps w' = beeps w /\
  isRunning (timer w') = true /\
  timerInterval (timer w') = Some (nextHandle w) /\
  intervals w' = {[nextHandle w]} /\
  remaining (timer (second w')) = remaining (timer w) - 1 /\
  (forall v,
     remaining (timer (start v)) = remaining (timer v) /\
     duration (timer (start v)) = duration (timer v) /\
     display (start v) = display v /\
     beeps (start v) = beeps v /\
     notifications (start v)
     = (notifications v ++
        if isRunning (timer v) then []
        else [("Focus session started!", "success")])%list).
Proof.
  intros Hc w'.
  destruct (pause_fields w) as (Hd & Hr & Hrun & _ & Hdsp & Hnh & Hb).
  pose proof (pause_intervals w Hc) as Hi.
  destruct (start_fields (pause w)) as (Hd' & Hr' & Hdsp' & Hb').
  assert (Hs : isRunning (timer w') = true /\
               timerInterval (timer w') = Some (nextHandle w) /\
               intervals w' = {[nextHandle w]}).
  { unfold w', start. rewrite Hrun; simpl. rewrite Hnh, Hi.
    repeat split. apply union_empty_r_L. }
  destruct Hs as (Hs1 & Hs2 & Hs3).
  assert (Hlive : live w' = true).
  { unfold live. rewrite Hs3. apply bool_decide_eq_true, non_empty_singleton_L. }
  unfold second. rewrite Hlive.
  destruct (tick_remaining w') as [-> _].
  fold w' in Hd', Hr', Hdsp', Hb'.
  rewrite Hd', Hr', Hdsp', Hb', Hd, Hr, Hdsp, Hb.
  repeat split; try done; apply start_frame.
Qed.

Lemma pause_then_start_resumes_witness :
  consistent (run (new 25 true 1) [Start; Second; Second]) /\
  remaining (timer (run (new 25 true 1) [Start; Second; Second])) = 1498 /\
  remaining (timer (start (pause (run (new 25 true 1) [Start; Second; Second]))))
  = 1498 /\
  remaining (timer (second (start (pause (run (new 25 true 1) [Start; Second; Second])))))
  = 1497.
Proof.
  assert (Hc : consistent (run (new 25 true 1) [Start; Second; Second])).
  { vm_compute. exists 1%positive. split; reflexivity. }
  split; [exact Hc |]. split; [reflexivity |].
  pose proof (pause_then_start_resumes _ Hc) as H. cbv zeta in H.
  destruct H as (Hr & _ & _ & _ & _ & _ & _ & Hn & _).
  split; [rewrite Hr | rewrite Hn]; reflexivity.
Defined.

(** [C5] (the code departs from the specification) The specification has
    [pause()] on a timer that is not running be a no-op, as [start()] on a
    running timer is. [start()] tests [isRunning]; [pause()] tests the stored
    handle, which is never set back to [null]. On the 25-minute timer that
    has been started and paused, the timer is not running, and a second
    [pause()] shows "Session paused" once more: the state is not the one
    before. *)
Theorem pause_when_paused_notifies :
  isRunning (timer (run (new 25 true 1) [Start; Pause])) = false /\
  notifications (pause (run (new 25 true 1) [Start; Pause]))
  = (notifications (run (new 25 true 1) [Start; Pause])
     ++ [("Session paused", "warning")])%list /\
  pause (run (new 25 true 1) [Start; Pause]) <> run (new 25 true 1) [Start; Pause].
Proof.
  split; [by vm_compute |]. split; [by vm_compute |].
  intros H. apply (f_equal notifications) in H. vm_compute in H. discriminate.
Qed.

(** What the two guards do achieve. [start()] on a running timer changes
    nothing at all, so no second callback is scheduled. [pause()] on a timer
    that is not running leaves the object, the scheduled callbacks, the
    spans, the next handle and the tone count as they are; it shows nothing
    if no handle was ever stored (then it changes nothing at all), and
    otherwise it shows "Session paused" once more. *)
Lemma invalid_transitions w :
  consistent w ->
  (isRunning (timer w) = true -> start w = w) /\
  (isRunning (timer w) = false ->
     timer (pause w) = timer w /\
     intervals (pause w) = intervals w /\
     display (pause w) = display w /\
     nextHandle (pause w) = nextHandle w /\
     beeps (pause w) = beeps w /\
     notifications (pause w)
     = (notifications w ++
        match timerInterval (timer w) with
        | Some _ => [("Session paused", "warning")]
        | None => []
        end)%list) /\
  (isRunning (timer w) = false -> timerInterval (timer w) = None -> pause w = w).
Proof.
  intros Hc. split; [| split].
  - intros Hrun. unfold start. by rewrite Hrun.
  - intros Hrun. pose proof (pause_intervals w Hc) as Hi.
    unfold consistent in Hc. rewrite Hrun in Hc. rewrite Hi, Hc.
    open_world w. subst. unfold pause; simpl.
    destruct ti; simpl; repeat split; try done. by rewrite app_nil_r.
  - intros Hrun Hti. open_world w. by subst.
Qed.

Lemma invalid_transitions_witness :
  start (run (new 25 true 1) [Start]) = run (new 25 true 1) [Start] /\
  intervals (pause (run (new 25 true 1) [Start; Pause]))
  = intervals (run (new 25 true 1) [Start; Pause]) /\
  pause (new 25 true 1) = new 25 true 1.
Proof.
  split; [| split].
  - apply (invalid_transitions (run (new 25 true 1) [Start])).
    + vm_compute. exists 1%positive. split; reflexivity.
    + reflexivity.
  - apply (invalid_transitions (run (new 25 true 1) [Start; Pause])).
    + vm_compute. reflexivity.
    + reflexivity.
  - apply (invalid_transitions (new 25 true 1)).
    + reflexivity.
    + reflexivity.
    + reflexivity.
Defined.

(** What [updateDisplay] writes depends on [remaining] alone. *)
Lemma updateDisplay_render w :
  display (updateDisplay w) = (fun _ => render (remaining (timer w))) <$> display w.
Proof. unfold updateDisplay. destruct (display w) eqn:E; simpl; by rewrite ?E. Qed.

Lemma string_length_app s1 s2 :
  String.length (s1 +:+ s2) = (String.length s1 + String.length s2)%nat.
Proof. induction s1 as [| c s1 IH]; simpl; [done | by rewrite IH]. Qed.

Lemma repeat_char_length k c : String.length (JS.repeat_char k c) = k.
Proof. induction k as [| k IH]; simpl; [done | by rewrite IH]. Qed.

Lemma padStart_length n c s : (n <= String.length (JS.padStart n c s))%nat.
Proof.
  unfold JS.padStart. rewrite string_length_app, repeat_char_length. lia.
Qed.

(** Both spans written by [updateDisplay] hold at least two characters. *)
Lemma render_two_chars r :
  (2 <= String.length (timer_minutes (render r)))%nat /\
  (2 <= String.length (timer_seconds (render r)))%nat.
Proof. split; apply padStart_length. Qed.

Lemma render_zero : render 0 = mkDisplay "00" "00".
Proof. reflexivity. Qed.

(** The scenario of the 25-minute timer: 1500 seconds after Start it has
    stopped at zero, shows 00:00 and has sounded once. *)
Lemma pomodoro_scenario :
  remaining (timer (run (new 25 true 1) (Start :: repeat Second 1500))) = 0 /\
  isRunning (timer (run (new 25 true 1) (Start :: repeat Second 1500))) = false /\
  display (run (new 25 true 1) (Start :: repeat Second 1500)) = Some (mkDisplay "00" "00") /\
  beeps (run (new 25 true 1) (Start :: repeat Second 1500)) = 1%nat.
Proof. by vm_compute. Qed.

(** For the timer the page creates, the first rendering agrees with what
    [updateDisplay] would write. *)
Lemma pomodoro_initial_display :
  display (new 25 true 1) = Some (render (remaining (timer (new 25 true 1)))).
Proof. reflexivity. Qed.

(** [C6] (the code departs from the specification) The specification has
    the text shown be a function of [remaining], zero-padded, the first
    rendering included. A five-minute timer shows "5" and "00" when
    constructed, and "05" and "00" after [reset()], with the same 300
    seconds remaining: [init] writes the minutes without padding,
    [updateDisplay] pads them. *)
Theorem initial_minutes_not_padded :
  remaining (timer (new 5 true 1)) = 300 /\
  display (new 5 true 1) = Some (mkDisplay "5" "00") /\
  remaining (timer (reset (new 5 true 1))) = 300 /\
  display (reset (new 5 true 1)) = Some (mkDisplay "05" "00") /\
  render 300 = mkDisplay "05" "00".
Proof. by vm_compute. Qed.
End TimerFacts.

(** * Printing and reading numbers *)
Section Numbers.
Import JS.

Lemma string_app_cons c (s1 s2 : string) :
  String c s1 +:+ s2 = String c (s1 +:+ s2).
Proof. reflexivity. Qed.

Lemma string_app_assoc (s1 s2 s3 : string) :
  (s1 +:+ s2) +:+ s3 = s1 +:+ (s2 +:+ s3).
Proof.
  induction s1 as [| c s1 IH]; [done |].
  by rewrite !string_app_cons, IH.
Qed.

Lemma digit_value_pretty (d : N) :
  (d < 10)%N -> digit_value 10 (pretty_N_char d) = Some (Z.of_N d).
Proof.
  intros Hd.
  assert (d = 0 \/ d = 1 \/ d = 2 \/ d = 3 \/ d = 4 \/ d = 5 \/ d = 6 \/
          d = 7 \/ d = 8 \/ d = 9)%N as H by lia.
  repeat (destruct H as [-> | H]; [reflexivity |]). by subst.
Qed.

Lemma all_digits_snoc ds c d :
  all_digits ds = true -> digit_value 10 c = Some d ->
  all_digits (ds +:+ String c "") = true.
Proof.
  intros Hds Hc. induction ds as [| c' ds IH].
  - simpl. by rewrite Hc.
  - rewrite string_app_cons. simpl in *.
    destruct (digit_value 10 c'); [by apply IH | done].
Qed.

(** The printer only ever prepends digits to what it was given. *)
Lemma pretty_N_go_digits (x : N) : forall s,
  exists ds, pretty_N_go x s = ds +:+ s /\ all_digits ds = true /\
             ((0 < x)%N -> ds <> "").
Proof.
  induction (N.lt_wf_0 x) as [x _ IH]; intros s.
  destruct (N.eq_0_gt_0_cases x) as [-> | Hpos].
  - exists "". rewrite pretty_N_go_0. split; [done | split; [done | lia]].
  - rewrite pretty_N_go_step by done.
    destruct (IH (x `div` 10)%N (N.div_lt x 10 Hpos eq_refl)
                 (String (pretty_N_char (x `mod` 10)) s)) as (ds & -> & Hds & _).
    exists (ds +:+ String (pretty_N_char (x `mod` 10)) "").
    rewrite string_app_assoc. split; [done | split].
    + eapply all_digits_snoc; [done |]. by apply digit_value_pretty, N.mod_lt.
    + by destruct ds.
Qed.

(** Reading back what the printer wrote gives the number, whatever the
    printer was asked to write in front of. *)
Lemma parse_pretty_N_go (x : N) : forall s,
  parse_digits 10 (pretty_N_go x s) 0 = parse_digits 10 s (Z.of_N x).
Proof.
  induction (N.lt_wf_0 x) as [x _ IH]; intros s.
  destruct (N.eq_0_gt_0_cases x) as [-> | Hpos].
  - by rewrite pretty_N_go_0.
  - rewrite pretty_N_go_step by done.
    rewrite IH by (by apply N.div_lt). simpl.
    rewrite digit_value_pretty by (by apply N.mod_lt).
    f_equal. pose proof (N.div_mod x 10). lia.
Qed.

Lemma pretty_N_go_app (x : N) : forall s t,
  pretty_N_go x s +:+ t = pretty_N_go x (s +:+ t).
Proof.
  induction (N.lt_wf_0 x) as [x _ IH]; intros s t.
  destruct (N.eq_0_gt_0_cases x) as [-> | Hpos].
  - by rewrite !pretty_N_go_0.
  - rewrite (pretty_N_go_step x s), (pretty_N_go_step x (s +:+ t)) by done.
    rewrite IH by (by apply N.div_lt). reflexivity.
Qed.

Lemma parse_digits_ends_number s acc :
  ends_number s = true -> parse_digits 10 s acc = acc.
Proof.
  destruct s as [| c s]; simpl; [done |]. by destruct (digit_value 10 c).
Qed.

Lemma digit_not_space c d :
  digit_value 10 c = Some d ->
  is_white_space c = false /\ c <> "-"%char /\ c <> "+"%char /\
  c <> "x"%char /\ c <> "X"%char.
Proof.
  destruct c as [[] [] [] [] [] [] [] []]; vm_compute; intros; repeat split; congruence.
Qed.

(** Nothing is trimmed from a string whose first byte is below every byte
    that starts a white-space character of several bytes, and is no white
    space itself. *)
Lemma trimStart_one_byte c s :
  is_white_space c = false -> (nat_of_ascii c < 194)%nat ->
  trimStart (String c s) = String c s.
Proof.
  intros Hw Hn.
  assert (H2 : forall c2, is_white_space2 c c2 = false).
  { intros c2. unfold is_white_space2.
    destruct (Nat.eqb_spec (nat_of_ascii c) 194); [lia | done]. }
  assert (H3 : forall c2 c3, is_white_space3 c c2 c3 = false).
  { intros c2 c3. unfold is_white_space3. cbv zeta.
    destruct (Nat.eqb_spec (nat_of_ascii c) 225); [lia |].
    destruct (Nat.eqb_spec (nat_of_ascii c) 226); [lia |].
    destruct (Nat.eqb_spec (nat_of_ascii c) 227); [lia |].
    destruct (Nat.eqb_spec (nat_of_ascii c) 239); [lia | done]. }
  destruct s as [| c2 [| c3 s3]]; cbn [trimStart]; by rewrite ?Hw, ?H2, ?H3.
Qed.

Lemma trimStart_digit c d s :
  digit_value 10 c = Some d -> trimStart (String c s) = String c s.
Proof.
  intros H. apply trimStart_one_byte.
  - revert H. destruct c as [[] [] [] [] [] [] [] []]; vm_compute; congruence.
  - revert H. destruct c as [[] [] [] [] [] [] [] []]; vm_compute; intros; (lia || congruence).
Qed.

Lemma trimStart_minus s : trimStart (String "-" s) = String "-" s.
Proof. apply trimStart_one_byte; [done | vm_compute; lia]. Qed.

Lemma strip_sign_digit c d s :
  digit_value 10 c = Some d -> strip_sign (String c s) = (1, String c s).
Proof.
  destruct c as [[] [] [] [] [] [] [] []]; vm_compute; intros; congruence.
Qed.

Lemma strip_hex_prefix_none c c' s :
  c' <> "x"%char -> c' <> "X"%char ->
  strip_hex_prefix (String c (String c' s)) = (10, String c (String c' s)).
Proof.
  intros Hx HX. unfold strip_hex_prefix.
  destruct c as [[] [] [] [] [] [] [] []]; try done.
  destruct c' as [[] [] [] [] [] [] [] []]; done.
Qed.

Lemma strip_hex_prefix_single c :
  strip_hex_prefix (String c "") = (10, String c "").
Proof. by destruct c as [[] [] [] [] [] [] [] []]. Qed.

(** A string that starts with decimal digits, followed by nothing that
    could extend the number, reads as those digits. *)
Lemma parse_unsigned_digits ds sfx :
  all_digits ds = true -> ds <> "" -> ends_number sfx = true ->
  parse_unsigned (ds +:+ sfx) = Some (parse_digits 10 (ds +:+ sfx) 0).
Proof.
  intros Hds Hne Hsfx.
  destruct ds as [| c ds]; [done |]. simpl in Hds.
  destruct (digit_value 10 c) as [d |] eqn:Hc; [| done].
  rewrite string_app_cons. unfold parse_unsigned.
  assert (Hhex : strip_hex_prefix (String c (ds +:+ sfx)) = (10, String c (ds +:+ sfx))).
  { destruct (ds +:+ sfx) as [| c' rest] eqn:Hrest; [apply strip_hex_prefix_single |].
    assert (Hc' : c' <> "x"%char /\ c' <> "X"%char).
    { destruct ds as [| c2 ds].
      - change ("" +:+ sfx) with sfx in Hrest. subst sfx. simpl in Hsfx.
        destruct (digit_value 10 c'); [done |].
        apply andb_true_iff in Hsfx as [H1 H2].
        apply negb_true_iff in H1, H2.
        split; intros ->; done.
      - rewrite string_app_cons in Hrest. injection Hrest as -> _. simpl in Hds.
        destruct (digit_value 10 c') as [d' |] eqn:Hc'; [| done].
        by destruct (digit_not_space c' d' Hc') as (_ & _ & _ & ? & ?). }
    destruct Hc'. by apply strip_hex_prefix_none. }
  rewrite Hhex. unfold parse_number. by rewrite Hc.
Qed.

Lemma parse_unsigned_pretty (x : N) sfx :
  (0 < x)%N -> ends_number sfx = true ->
  exists c s, pretty_N_go x "" +:+ sfx = String c s /\
              trimStart (String c s) = String c s /\
              strip_sign (String c s) = (1, String c s) /\
              parse_unsigned (String c s) = Some (Z.of_N x).
Proof.
  intros Hx Hsfx. rewrite pretty_N_go_app. change ("" +:+ sfx) with sfx.
  destruct (pretty_N_go_digits x sfx) as (ds & Heq & Hds & Hne).
  pose proof (parse_pretty_N_go x sfx) as Hparse.
  pose proof (parse_unsigned_digits ds sfx Hds (Hne Hx) Hsfx) as Hun.
  rewrite Heq in *. rewrite Hparse, parse_digits_ends_number in Hun by done.
  destruct ds as [| c ds]; [by destruct (Hne Hx) |].
  simpl in Hds. destruct (digit_value 10 c) as [d |] eqn:Hc; [| done].
  rewrite string_app_cons in *. exists c, (ds +:+ sfx).
  split; [done |]. split; [by apply (trimStart_digit c d) |].
  split; [by apply (strip_sign_digit c d) | done].
Qed.

(** [parseInt] reads a printed number back, also when a text such as the
    percent sign follows it. *)
Lemma parseInt_toString z sfx :
  ends_number sfx = true -> parseInt_string (toString z +:+ sfx) = Some z.
Proof.
  intros Hsfx. destruct z as [| p | p].
  - change (toString 0 +:+ sfx) with (String "0" sfx).
    pose proof (parse_unsigned_digits "0" sfx eq_refl ltac:(done) Hsfx) as Hun.
    change ("0" +:+ sfx) with (String "0" sfx) in Hun.
    change (parse_digits 10 (String "0" sfx) 0)
      with (parse_digits 10 sfx 0) in Hun.
    rewrite parse_digits_ends_number in Hun by done.
    unfold parseInt_string.
    rewrite (trimStart_digit "0" 0) by done.
    change (strip_sign (String "0" sfx)) with (1, String "0" sfx).
    cbv beta iota. by rewrite Hun.
  - change (toString (Zpos p)) with (pretty_N_go (Npos p) "").
    destruct (parse_unsigned_pretty (Npos p) sfx) as (c & s & -> & Hws & Hsign & Hun);
      [lia | done |].
    unfold parseInt_string. rewrite Hws, Hsign.
    cbv beta iota. by rewrite Hun.
  - change (toString (Zneg p) +:+ sfx)
      with (String "-" (pretty_N_go (Npos p) "" +:+ sfx)).
    destruct (parse_unsigned_pretty (Npos p) sfx) as (c & s & -> & Hws & Hsign & Hun);
      [lia | done |].
    unfold parseInt_string.
    rewrite trimStart_minus.
    change (strip_sign (String "-" (String c s))) with (-1, String c s).
    cbv beta iota. by rewrite Hun.
Qed.

(** The no-break space, two bytes in UTF-8, is skipped as the space is. *)
Example parseInt_skips_no_break_space :
  parseInt (Some (String (ascii_of_nat 194) (String (ascii_of_nat 160) "-30")))
  = Some (-30) /\
  parseInt (Some "  42px") = Some 42.
Proof. split; reflexivity. Qed.

End Numbers.

(** * Progress bars *)
Section ProgressFacts.
Import JS Progress.

Lemma string_app_nil_r (s : string) : s +:+ "" = s.
Proof.
  induction s as [| c s IH]; [done |]. by rewrite string_app_cons, IH.
Qed.

Lemma assign_width_taken width n :
  0 <= n -> assign_width width n = toString n +:+ "%".
Proof. intros Hn. unfold assign_width. by destruct (Z.ltb_spec n 0); [lia |]. Qed.

Lemma assign_width_refused width n : n < 0 -> assign_width width n = width.
Proof. intros Hn. unfold assign_width. by destruct (Z.ltb_spec n 0); [| lia]. Qed.

(** What the code reads back from a bar it has just written. *)
Lemma bar_progress_bump b :
  -25 <= bar_progress b ->
  bar_progress (bump_bar b) = Z.min (bar_progress b + 25) 100.
Proof.
  intros Hb. unfold bump_bar. unfold bar_progress at 1. simpl bar_width.
  rewrite assign_width_taken by lia.
  unfold parseInt. by rewrite parseInt_toString.
Qed.

Lemma bar_progress_refused b :
  bar_progress b < -25 -> bar_progress (bump_bar b) = bar_progress b.
Proof.
  intros Hb. unfold bump_bar. unfold bar_progress at 1. simpl bar_width.
  by rewrite assign_width_refused by lia.
Qed.

(** An overall indicator that reads -30 gets -25 as its attribute and its
    text; the width is refused and stays unset. *)
Example negative_width_refused :
  bump_overall (mkOverall (Some "-30") "" "-30%")
  = mkOverall (Some "-25") "" "-25%".
Proof. reflexivity. Qed.

(** An id with a backslash is not tested literally: the model gives no
    answer for it. *)
Example escaped_id_not_followed :
  updateProgressBar "a\62" (mkPage [mkBar (Some "ab") "0%" "0%"] None) = None.
Proof. reflexivity. Qed.

Lemma bar_progress_bump_le b : bar_progress (bump_bar b) <= 100.
Proof.
  destruct (Z.lt_ge_cases (bar_progress b) (-25)).
  - rewrite bar_progress_refused by done. lia.
  - rewrite bar_progress_bump by done. lia.
Qed.

Lemma overall_progress_bump o :
  overall_progress (bump_overall o) = Z.min (overall_progress o + 5) 100.
Proof.
  unfold bump_overall. unfold overall_progress at 1. simpl data_progress.
  unfold parseInt.
  rewrite <- (string_app_nil_r (toString _)). by rewrite parseInt_toString.
Qed.

Lemma matches_bump a b : matches a (bump_bar b) = matches a b.
Proof. reflexivity. Qed.

Lemma querySelector_bump_first a bs b :
  querySelector a bs = Some b ->
  querySelector a (bump_first a bs) = Some (bump_bar b).
Proof.
  induction bs as [| b' bs IH]; simpl; [done |].
  destruct (matches a b') eqn:Hm; simpl.
  - intros [= ->]. by rewrite matches_bump, Hm.
  - rewrite Hm. apply IH.
Qed.

Lemma bump_bar_bounds b :
  0 <= bar_progress b <= 100 -> 0 <= bar_progress (bump_bar b) <= 100.
Proof. intros Hb. rewrite bar_progress_bump by lia. lia. Qed.

Lemma bump_first_bounds a bs :
  Forall (fun b => 0 <= bar_progress b <= 100) bs ->
  Forall (fun b => 0 <= bar_progress b <= 100) (bump_first a bs).
Proof.
  induction 1 as [| b bs Hb Hbs IH]; simpl; [done |].
  destruct (matches a b).
  - constructor; [| done]. by apply bump_bar_bounds.
  - by constructor.
Qed.

Lemma querySelector_elem_of a bs b : querySelector a bs = Some b -> b ∈ bs.
Proof.
  induction bs as [| b' bs IH]; simpl; [done |].
  destruct (matches a b').
  - intros [= ->]. by left.
  - intros H. right. by apply IH.
Qed.

Lemma reads_exactly_bounds b o :
  0 <= bar_progress b <= 100 ->
  (forall o', o = Some o' -> 0 <= overall_progress o' <= 100) ->
  reads_exactly b o = true.
Proof.
  intros Hb Ho. unfold reads_exactly, read_exactly.
  apply andb_true_iff. split; [apply Z.leb_le; lia |].
  destruct o as [o' |]; [| done]. specialize (Ho o' eq_refl). apply Z.leb_le. lia.
Qed.

(** [C10] [updateProgressBar] keeps every progress value within 0..100.
    If all the bars and the overall indicator show values in that range,
    they still do after the body of the function has run on any bar of the
    page, whichever the selector resolves to: that bar moves up by 25 and the
    overall indicator by 5, each stopping at 100. For an id that the
    selector tests literally, the bar is the first one whose [data-activity]
    is the id, and a page without such a bar is left as it is. From any
    value at all, neither number is above 100 afterwards. *)
Theorem updateProgressBar_clamped activityId p :
  Forall (fun b => 0 <= bar_progress b <= 100) (bars p) ->
  (forall o, overall p = Some o -> 0 <= overall_progress o <= 100) ->
  (forall i,
     Forall (fun b => 0 <= bar_progress b <= 100) (bars (update_found i p)) /\
     (forall o, overall (update_found i p) = Some o ->
                0 <= overall_progress o <= 100) /\
     (forall b, bars p !! i = Some b ->
        bars (update_found i p) !! i = Some (bump_bar b) /\
        bar_progress (bump_bar b) = Z.min (bar_progress b + 25) 100 /\
        overall (update_found i p) = bump_overall <$> overall p)) /\
  (forall o, overall p = Some o ->
     overall_progress (bump_overall o) = Z.min (overall_progress o + 5) 100) /\
  (selector_literal activityId = true ->
   exists p',
     updateProgressBar activityId p = Some p' /\
     Forall (fun b => 0 <= bar_progress b <= 100) (bars p') /\
     (forall o, overall p' = Some o -> 0 <= overall_progress o <= 100) /\
     (forall b, querySelector activityId (bars p) = Some b ->
        querySelector activityId (bars p') = Some (bump_bar b) /\
        bar_progress (bump_bar b) = Z.min (bar_progress b + 25) 100 /\
        overall p' = bump_overall <$> overall p) /\
     (querySelector activityId (bars p) = None -> p' = p)) /\
  (forall b, bar_progress (bump_bar b) <= 100) /\
  (forall o, overall_progress (bump_overall o) <= 100).
Proof.
  intros Hbars Hoverall.
  assert (Hafter : forall o, bump_overall <$> overall p = Some o ->
                             0 <= overall_progress o <= 100).
  { intros o Ho. destruct (overall p) as [o0 |]; [| done].
    injection Ho as <-. rewrite overall_progress_bump.
    specialize (Hoverall o0 eq_refl). lia. }
  split; [| split; [| split; [| split]]].
  - intros i. unfold update_found.
    destruct (bars p !! i) as [b0 |] eqn:Hi; cbn [bars overall]; [| done].
    assert (Hb0 : 0 <= bar_progress b0 <= 100)
      by (rewrite Forall_lookup in Hbars; by apply (Hbars i)).
    split; [| split].
    + apply Forall_insert; [done |]. by apply bump_bar_bounds.
    + done.
    + intros b [= <-]. split; [| split; [apply bar_progress_bump; lia | done]].
      apply list_lookup_insert_eq. by apply lookup_lt_Some in Hi.
  - intros o _. apply overall_progress_bump.
  - intros Hlit. unfold updateProgressBar. rewrite Hlit.
    destruct (querySelector activityId (bars p)) as [b0 |] eqn:Hq.
    + assert (Hb0 : 0 <= bar_progress b0 <= 100).
      { rewrite Forall_forall in Hbars. apply Hbars.
        by apply (querySelector_elem_of activityId). }
      rewrite (reads_exactly_bounds b0 (overall p)) by done.
      eexists. split; [done |]. cbn [bars overall].
      split; [by apply bump_first_bounds |].
      split; [intros o Ho; apply Hafter; by destruct (overall p) |].
      split; [| done].
      intros b [= <-]. split; [by apply querySelector_bump_first |].
      split; [apply bar_progress_bump; lia | by destruct (overall p)].
    + exists p. split; [done |]. split; [done |]. split; [done |]. split; done.
  - apply bar_progress_bump_le.
  - intros o. rewrite overall_progress_bump. lia.
Qed.

Lemma updateProgressBar_clamped_witness :
  updateProgressBar "a1"
    (mkPage [mkBar (Some "a0") "50%" "50%"; mkBar (Some "a1") "90%" "90%"]
            (Some (mkOverall (Some "98") "98%" "98%")))
  = Some (mkPage [mkBar (Some "a0") "50%" "50%"; mkBar (Some "a1") "100%" "100%"]
                 (Some (mkOverall (Some "100") "100%" "100%"))) /\
  exists p',
    updateProgressBar "a1"
      (mkPage [mkBar (Some "a0") "50%" "50%"; mkBar (Some "a1") "90%" "90%"]
              (Some (mkOverall (Some "98") "98%" "98%"))) = Some p' /\
    Forall (fun b => 0 <= bar_progress b <= 100) (bars p').
Proof.
  split; [reflexivity |].
  destruct (updateProgressBar_clamped "a1"
              (mkPage [mkBar (Some "a0") "50%" "50%"; mkBar (Some "a1") "90%" "90%"]
                      (Some (mkOverall (Some "98") "98%" "98%"))))
    as (_ & _ & Hlit & _).
  - repeat constructor; vm_compute; discriminate.
  - intros o [= <-]. split; vm_compute; discriminate.
  - destruct (Hlit eq_refl) as (p' & Hp' & Hb & _). exists p'. split; [exact Hp' | exact Hb].
Defined.

End ProgressFacts.

(** * Local storage: moods, preference flags, reminders *)
Section AppFacts.
Import JS App.

Implicit Types (st : gmap string string) (w : AppWorld).

Lemma getItem_setItem key value st : getItem key (setItem key value st) = Some value.
Proof. apply lookup_insert_eq. Qed.

Lemma getItem_setItem_ne key key' value st :
  key <> key' -> getItem key' (setItem key value st) = getItem key' st.
Proof. intros Hne. by apply lookup_insert_ne. Qed.

Lemma is_true_string_of_bool b : is_true_string (Some (string_of_bool b)) = b.
Proof. by destruct b. Qed.

(** The flag written by [toggleHighContrast] is the one a later constructor
    reads, and toggling one flag leaves the other as stored. *)
Lemma highContrast_round_trip w :
  highContrast (constructor (storage (toggleHighContrast w)))
  = highContrast (app (toggleHighContrast w)) /\
  getItem "gentleMode" (storage (toggleHighContrast w))
  = getItem "gentleMode" (storage w).
Proof.
  unfold toggleHighContrast, constructor; simpl. split.
  - by rewrite getItem_setItem, is_true_string_of_bool.
  - by rewrite getItem_setItem_ne.
Qed.

(** Loading on a page that has a button for the stored mood marks that
    button and writes the mood to the hidden input. *)
Lemma loadLastMood_restores m st p bs :
  getItem "lastMood" st = Some m -> m <> "" -> selector_literal m = true ->
  activate_first m (moodButtons p) = Some bs ->
  loadLastMood st p = Some (mkMoodPage bs ((fun _ => m) <$> moodInput p)).
Proof.
  intros Hget Hne Hlit Hact. unfold loadLastMood, restoreMood. rewrite Hget, Hlit, Hact.
  destruct m as [| c m]; [done |]. simpl.
  unfold set_input; simpl. by destruct (moodInput p).
Qed.

(** A click on a mood button, then a later page view: the button of that
    mood is marked again and the hidden input holds the mood. *)
Lemma clickMood_then_load i now p st b p' bs :
  moodButtons p !! i = Some b ->
  data_mood b <> "" -> selector_literal (data_mood b) = true ->
  activate_first (data_mood b) (moodButtons p') = Some bs ->
  loadLastMood (clickMood i now p st).2 p'
  = Some (mkMoodPage bs ((fun _ => data_mood b) <$> moodInput p')).
Proof.
  intros Hb Hne Hlit Hact. unfold clickMood. rewrite Hb. simpl.
  apply loadLastMood_restores; try done.
  unfold saveMood. rewrite getItem_setItem_ne by done. apply getItem_setItem.
Qed.

(** [C9] Moods and the gentle-mode flag go through local storage
    unchanged. After [saveMood(m)] the key [lastMood] holds exactly [m],
    whatever string [m] is, and the load at the next page view proceeds with
    that very string. After [toggleGentleMode] a newly constructed app reads
    the flag the toggling app now holds, which is the negation of the flag
    it held before; what is stored is the word "true" or "false". *)
Theorem preferences_round_trip :
  (forall m now st, getItem "lastMood" (saveMood m now st) = Some m) /\
  (forall m now st p,
     loadLastMood (saveMood m now st) p = restoreMood (Some m) p) /\
  (forall w,
     gentleMode (constructor (storage (toggleGentleMode w)))
     = gentleMode (app (toggleGentleMode w)) /\
     gentleMode (app (toggleGentleMode w)) = negb (gentleMode (app w)) /\
     getItem "gentleMode" (storage (toggleGentleMode w))
     = Some (string_of_bool (negb (gentleMode (app w))))).
Proof.
  assert (Hsave : forall m now st, getItem "lastMood" (saveMood m now st) = Some m).
  { intros m now st. unfold saveMood.
    rewrite getItem_setItem_ne by done. apply getItem_setItem. }
  split; [exact Hsave |]. split.
  - intros m now st p. unfold loadLastMood. by rewrite Hsave.
  - intros w. unfold toggleGentleMode, constructor; simpl.
    by rewrite getItem_setItem, is_true_string_of_bool.
Qed.

(** The reminder callback never writes to local storage. *)
Lemma reminder_callback_storage now choice w :
  storage (reminder_callback now choice w) = storage w.
Proof. unfold reminder_callback. by destruct (shouldShowReminder _ _). Qed.

Lemma reminder_loop_storage choices : forall start w,
  storage (reminder_loop start choices w) = storage w.
Proof.
  induction choices as [| c cs IH]; intros start w; simpl; [done |].
  by rewrite IH, reminder_callback_storage.
Qed.

Lemma toString_nonempty z : toString z <> "".
Proof.
  destruct z as [| p | p]; [done | | done].
  change (toString (Zpos p)) with (pretty_N_go (Npos p) "").
  destruct (pretty_N_go_digits (Npos p) "") as (ds & -> & _ & Hne).
  destruct ds; [by destruct Hne |]. done.
Qed.

(** A stored timestamp does hold reminders back for thirty minutes. *)
Lemma shouldShowReminder_stored now t st :
  shouldShowReminder now (setItem "lastReminderTime" (toString t) st)
  = (30 * 60 * 1000 <? now - t).
Proof.
  unfold shouldShowReminder. rewrite getItem_setItem.
  pose proof (toString_nonempty t) as Hne.
  unfold truthy. destruct (toString t) as [| c s] eqn:Ht; [done |].
  rewrite <- Ht. unfold parseInt.
  rewrite <- (string_app_nil_r (toString t)). by rewrite parseInt_toString.
Qed.

(** Without a stored timestamp every run of the callback shows one. *)
Lemma shouldShowReminder_absent now st :
  getItem "lastReminderTime" st = None -> shouldShowReminder now st = true.
Proof. intros Hget. unfold shouldShowReminder. by rewrite Hget. Qed.

(** [C7] (the code departs from the specification) The specification has
    reminders of the periodic loop at least thirty minutes apart, as does
    the comment in [shouldShowReminder]. No code stores [lastReminderTime],
    so on a browser without that key the callback shows a reminder each time
    it runs: here at fifteen and at thirty minutes after the app was set up,
    and the key is still absent afterwards. *)
Theorem reminders_fifteen_minutes_apart :
  reminder_period = 15 * 60 * 1000 /\
  reminder_period < 30 * 60 * 1000 /\
  getItem "lastReminderTime" (storage (mkAppWorld (constructor ∅) ∅ ∅ [])) = None /\
  shown (reminder_callback (1700000000000 + reminder_period) 0
           (mkAppWorld (constructor ∅) ∅ ∅ []))
  = [("Take a deep breath. You're doing great.", "info")] /\
  shown (reminder_callback (1700000000000 + 2 * reminder_period) 1
           (reminder_callback (1700000000000 + reminder_period) 0
              (mkAppWorld (constructor ∅) ∅ ∅ [])))
  = [("Take a deep breath. You're doing great.", "info");
     ("Remember to hydrate and stretch.", "info")] /\
  shown (reminder_loop 1700000000000 [0; 1]%nat (mkAppWorld (constructor ∅) ∅ ∅ []))
  = [("Take a deep breath. You're doing great.", "info");
     ("Remember to hydrate and stretch.", "info")] /\
  getItem "lastReminderTime"
    (storage (reminder_loop 1700000000000 [0; 1]%nat
                (mkAppWorld (constructor ∅) ∅ ∅ []))) = None.
Proof. by vm_compute. Qed.

End AppFacts.

(** * The AJAX error handler *)
Section AjaxFacts.
Import Ajax.

Lemma snoc_neq {A} (l : list A) (x : A) : (l ++ [x])%list <> l.
Proof.
  intros H. apply (f_equal length) in H. rewrite length_app in H. simpl in H. lia.
Qed.

(** [C8] The handler shows an alert for the statuses 401, 403 and 500 and
    for no other: "Please log in to continue" as a warning, "You don't have
    permission to do that" and "Server error. Please try again later." as
    danger; for any other status the page is left as it is. *)
Theorem ajaxError_handles_exactly status alerts :
  (ajaxError status alerts <> alerts <->
   status = 401 \/ status = 403 \/ status = 500) /\
  ajaxError 401 alerts
  = (alerts ++ [mkAlert "Please log in to continue" "warning" 3000])%list /\
  ajaxError 403 alerts
  = (alerts ++ [mkAlert "You don't have permission to do that" "danger" 3000])%list /\
  ajaxError 500 alerts
  = (alerts ++ [mkAlert "Server error. Please try again later." "danger" 3000])%list.
Proof.
  split; [| done]. unfold ajaxError, showNotification.
  destruct (Z.eqb_spec status 401) as [-> | H1].
  { split; [auto | intros _; apply snoc_neq]. }
  destruct (Z.eqb_spec status 403) as [-> | H2].
  { split; [auto | intros _; apply snoc_neq]. }
  destruct (Z.eqb_spec status 500) as [-> | H3].
  { split; [auto | intros _; apply snoc_neq]. }
  split; [done | intros [? | [? | ?]]; done].
Qed.

End AjaxFacts.

(** * More on the session timer *)
Section TimerRunsFacts.
Import Timer TimerRuns.

Implicit Types (w : World) (es : list Event).

Lemma new_fields d c h :
  duration (timer (new d c h)) = d * 60 /\
  remaining (timer (new d c h)) = d * 60 /\
  isRunning (timer (new d c h)) = false /\
  (display (new d c h) = None <-> c = false).
Proof. unfold new, init. by destruct c. Qed.

(** [X1] In every state the timer can reach there is at most one scheduled
    callback: one is scheduled exactly when [isRunning] holds, and it is the
    one whose handle the object stores. However Start, Pause and Reset are
    pressed, two callbacks never count the same timer down. *)
Theorem one_tick_source d c h es :
  live (run (new d c h) es) = isRunning (timer (run (new d c h) es)) /\
  (size (intervals (run (new d c h) es)) <= 1)%nat /\
  (forall i, i ∈ intervals (run (new d c h) es) ->
             timerInterval (timer (run (new d c h) es)) = Some i).
Proof.
  assert (Hc : consistent (run (new d c h) es)) by apply consistent_run, consistent_new.
  split; [by apply live_consistent |].
  unfold consistent in Hc.
  destruct (isRunning (timer (run (new d c h) es))).
  - destruct Hc as (i & Hi & ->). split; [rewrite size_singleton; lia |].
    intros j Hj. apply elem_of_singleton in Hj. by subst.
  - rewrite Hc. split; [rewrite size_empty; lia |]. intros i Hi. by apply elem_of_empty in Hi.
Qed.

Lemma display_in_sync_frame w w' :
  display w' = display w -> timer w' = timer w \/
    (remaining (timer w') = remaining (timer w) /\
     duration (timer w') = duration (timer w)) ->
  display_in_sync w -> display_in_sync w'.
Proof.
  unfold display_in_sync. intros -> Ht.
  assert (Hr : remaining (timer w') = remaining (timer w) /\
               duration (timer w') = duration (timer w)).
  { destruct Ht as [-> | ?]; done. }
  destruct Hr as [-> ->]. done.
Qed.

Lemma display_in_sync_updateDisplay w : display_in_sync (updateDisplay w).
Proof.
  unfold display_in_sync. rewrite updateDisplay_render.
  destruct (remaining_updateDisplay w) as (-> & _).
  destruct (display w); simpl; [by left | done].
Qed.

Lemma display_in_sync_step w e : display_in_sync w -> display_in_sync (step w e).
Proof.
  intros Hs. destruct e; cbn [step].
  - destruct (start_fields w) as (? & ? & ? & _).
    apply (display_in_sync_frame w); auto.
  - destruct (pause_fields w) as (? & ? & _ & _ & ? & _).
    apply (display_in_sync_frame w); auto.
  - destruct (reset_fields w) as (Hd & Hr & _ & Hdsp & _).
    unfold display_in_sync. rewrite Hdsp, Hr.
    destruct (display w); simpl; [by left | done].
  - unfold second. destruct (live w); [| done].
    set (w1 := updateDisplay (set_remaining (remaining (timer w) - 1) w)).
    assert (Hw1 : display_in_sync w1) by apply display_in_sync_updateDisplay.
    destruct (Z.le_gt_cases (remaining (timer w)) 1).
    + rewrite tick_completing by done. fold w1.
      destruct (complete_fields w1) as (? & ? & _ & ? & _).
      apply (display_in_sync_frame w1); auto.
    + by rewrite tick_counting.
Qed.

Lemma remaining_le_duration_step w e :
  remaining (timer w) <= duration (timer w) ->
  remaining (timer (step w e)) <= duration (timer (step w e)).
Proof.
  intros Hle. rewrite duration_step. destruct e; cbn [step].
  - destruct (start_fields w) as (_ & -> & _). done.
  - destruct (pause_fields w) as (_ & -> & _). done.
  - destruct (reset_fields w) as (_ & -> & _). done.
  - unfold second. destruct (live w); [| done].
    destruct (tick_remaining w) as [-> _]. lia.
Qed.

(** [X2] The spans never show a stale time. In every state the timer can
    reach, they hold what [updateDisplay] writes for the current
    [remaining], or still what [init] wrote while nothing has been counted;
    [duration] keeps the value given at construction and [remaining] never
    exceeds it. *)
Theorem display_follows_remaining d c h es :
  display_in_sync (run (new d c h) es) /\
  (display (run (new d c h) es) = None <-> c = false) /\
  duration (timer (run (new d c h) es)) = d * 60 /\
  remaining (timer (run (new d c h) es)) <= d * 60.
Proof.
  destruct (new_fields d c h) as (Hd & Hr & _ & Hnone).
  assert (H : forall w, display_in_sync w ->
                remaining (timer w) <= duration (timer w) ->
                display_in_sync (run w es) /\
                (display (run w es) = None <-> display w = None) /\
                remaining (timer (run w es)) <= duration (timer (run w es))).
  { induction es as [| e es IH]; intros w Hs Hle; simpl; [done |].
    destruct (IH (step w e)) as (IH1 & IH2 & IH3).
    - by apply display_in_sync_step.
    - by apply remaining_le_duration_step.
    - split; [done |]. split; [| done]. rewrite IH2.
      destruct e; cbn [step].
      + destruct (start_fields w) as (_ & _ & -> & _). done.
      + destruct (pause_fields w) as (_ & _ & _ & _ & -> & _). done.
      + destruct (reset_fields w) as (_ & _ & _ & -> & _).
        by destruct (display w).
      + unfold second. destruct (live w); [| done].
        set (w1 := updateDisplay (set_remaining (remaining (timer w) - 1) w)).
        assert (Hw1 : display w1 = None <-> display w = None).
        { unfold w1. rewrite updateDisplay_render. simpl. by destruct (display w). }
        destruct (Z.le_gt_cases (remaining (timer w)) 1).
        * rewrite tick_completing by done. fold w1.
          destruct (complete_fields w1) as (_ & _ & _ & -> & _). done.
        * by rewrite tick_counting. }
  destruct (H (new d c h)) as (H1 & H2 & H3).
  - unfold display_in_sync, new, init. destruct c; simpl; [| done].
    right. split; [done | lia].
  - lia.
  - rewrite duration_run, Hd in *. rewrite H2, Hnone. done.
Qed.

Lemma ticks_since_reset_run es : forall w acc,
  remaining (timer w) = duration (timer w) - acc ->
  remaining (timer (run w es))
  = duration (timer w) - ticks_since_reset w es acc.
Proof.
  induction es as [| e es IH]; intros w acc Hacc; simpl; [done |].
  rewrite <- (duration_step w e). apply IH. rewrite duration_step.
  destruct e; cbn [step].
  - destruct (start_fields w) as (_ & -> & _). done.
  - destruct (pause_fields w) as (_ & -> & _). done.
  - destruct (reset_fields w) as (_ & -> & _). lia.
  - unfold second. destruct (live w); [| done].
    destruct (tick_remaining w) as [-> _]. lia.
Qed.

(** [X3] Whatever is pressed and whenever, [remaining] is the duration less
    the number of ticks delivered since the timer was created or last reset:
    every delivered tick takes exactly one second off, a second that passes
    while the timer is stopped takes nothing off, and Start and Pause never
    change the count. *)
Theorem remaining_counts_ticks d c h es :
  remaining (timer (run (new d c h) es))
  = d * 60 - ticks_since_reset (new d c h) es 0.
Proof.
  destruct (new_fields d c h) as (Hd & Hr & _).
  rewrite (ticks_since_reset_run es (new d c h) 0) by lia. by rewrite Hd.
Qed.

Lemma no_restart_seconds n : forall w, no_restart w (repeat Second n).
Proof. induction n as [| n IH]; intros w; simpl; [done |]. split; [done | apply IH]. Qed.

Lemma no_reset_seconds n : no_reset (repeat Second n).
Proof. apply List.Forall_forall. intros e He. by rewrite (repeat_spec _ _ _ He). Qed.

(** [X4] A timer of at least one minute, freshly created or reset in any
    state it can reach, then started and left alone: after [n] seconds
    [max(0, duration - n)] seconds remain, never fewer than zero, and the
    timer is running exactly while [n] is below the duration. *)
Theorem countdown_after_start d c h es (n : nat) :
  0 < d ->
  (remaining (timer (run (new d c h) (Start :: repeat Second n)))
   = Z.max 0 (d * 60 - Z.of_nat n) /\
   isRunning (timer (run (new d c h) (Start :: repeat Second n)))
   = (Z.of_nat n <? d * 60)) /\
  (remaining (timer (run (reset (run (new d c h) es)) (Start :: repeat Second n)))
   = Z.max 0 (d * 60 - Z.of_nat n) /\
   isRunning (timer (run (reset (run (new d c h) es)) (Start :: repeat Second n)))
   = (Z.of_nat n <? d * 60)).
Proof.
  intros Hd. destruct (new_fields d c h) as (Hdur & _).
  split.
  - destruct (uninterrupted_countdown (new d c h) n) as (_ & _ & Hr & Hrun);
      [apply idle_new | lia |].
    simpl run. by rewrite Hr, Hrun, Hdur.
  - set (w := run (new d c h) es).
    assert (Hc : consistent w) by apply consistent_run, consistent_new.
    assert (Hdw : duration (timer (reset w)) = d * 60).
    { destruct (reset_fields w) as (-> & _). unfold w. by rewrite duration_run. }
    destruct (uninterrupted_countdown (reset w) n) as (_ & _ & Hr & Hrun);
      [by apply idle_reset | lia |].
    simpl run. by rewrite Hr, Hrun, Hdw.
Qed.

Lemma countdown_after_start_witness :
  (remaining (timer (run (new 25 true 1) (Start :: repeat Second 100)))
   = Z.max 0 (25 * 60 - Z.of_nat 100) /\
   isRunning (timer (run (new 25 true 1) (Start :: repeat Second 100)))
   = (Z.of_nat 100 <? 25 * 60)) /\
  (remaining (timer (run (reset (run (new 25 true 1) restart_after_completion))
                         (Start :: repeat Second 100)))
   = Z.max 0 (25 * 60 - Z.of_nat 100) /\
   isRunning (timer (run (reset (run (new 25 true 1) restart_after_completion))
                         (Start :: repeat Second 100)))
   = (Z.of_nat 100 <? 25 * 60)).
Proof. apply (countdown_after_start 25 true 1 restart_after_completion 100). lia. Defined.

(** [X5] Within one session, that is from a fresh or reset timer of positive
    duration, without Reset and without Start being pressed on a timer that
    has run out, however Pause and Start alternate: [remaining] stays
    between zero and the duration, the timer is never running at zero, and
    the completion tone has sounded once if [remaining] is zero and not at
    all otherwise. *)
Theorem session_completes_at_most_once w es :
  idle w -> 0 < duration (timer w) -> no_reset es -> no_restart w es ->
  0 <= remaining (timer (run w es)) <= duration (timer w) /\
  (isRunning (timer (run w es)) = true -> 0 < remaining (timer (run w es))) /\
  beeps (run w es)
  = (if remaining (timer (run w es)) =? 0 then S (beeps w) else beeps w) /\
  (remaining (timer (run w es)) = 0 -> intervals (run w es) = ∅).
Proof.
  intros Hidle HD Hnr Hns.
  assert (HD' : 0 <= duration (timer w)) by lia.
  pose proof (in_session_run _ _ es 0 w (idle_in_session w Hidle HD') Hnr Hns)
    as (Hc & Hk & _ & Hr & H0 & Hrun & Hb).
  replace (0 <? duration (timer w)) with true in Hb by (symmetry; apply Z.ltb_lt; lia).
  simpl in Hb, Hk.
  split; [lia |]. split; [done |]. split; [done |].
  intros Hz. unfold consistent in Hc.
  destruct (isRunning (timer (run w es))); [specialize (Hrun eq_refl); lia | done].
Qed.

Lemma session_completes_at_most_once_witness :
  0 <= remaining (timer (run (new 25 true 1) (Start :: repeat Second 1500)))
    <= duration (timer (new 25 true 1)) /\
  (isRunning (timer (run (new 25 true 1) (Start :: repeat Second 1500))) = true ->
   0 < remaining (timer (run (new 25 true 1) (Start :: repeat Second 1500)))) /\
  beeps (run (new 25 true 1) (Start :: repeat Second 1500))
  = (if remaining (timer (run (new 25 true 1) (Start :: repeat Second 1500))) =? 0
     then S (beeps (new 25 true 1)) else beeps (new 25 true 1)) /\
  (remaining (timer (run (new 25 true 1) (Start :: repeat Second 1500))) = 0 ->
   intervals (run (new 25 true 1) (Start :: repeat Second 1500)) = ∅).
Proof.
  apply (session_completes_at_most_once (new 25 true 1) (Start :: repeat Second 1500)).
  - repeat split; reflexivity.
  - reflexivity.
  - apply Forall_cons_2; [discriminate | apply no_reset_seconds].
  - split; [intros _ _; reflexivity | apply no_restart_seconds].
Defined.

End TimerRunsFacts.

(** * Theme and settings across page views *)
Section ThemeFacts.
Import Theme.

Lemma dark_after_toggle p :
  App.getItem "theme" (storage (toggleTheme p))
  = Some (if bool_decide ("dark-theme" ∈ bodyClasses (toggleTheme p))
          then "dark" else "light").
Proof. unfold toggleTheme; simpl. apply lookup_insert_eq. Qed.

(** [X6] The theme survives a reload. After a click on the toggle, the next
    page view, whose body arrives without the class [dark-theme], is dark
    exactly if the page was dark after the click, whatever the system
    preference is. Without a saved theme the system preference decides. *)
Theorem theme_survives_reload prefersDark body p notes :
  "dark-theme" ∉ body ->
  ("dark-theme" ∈ bodyClasses
      (initializeTheme prefersDark (mkPage body (storage (toggleTheme p)) notes))
   <-> "dark-theme" ∈ bodyClasses (toggleTheme p)) /\
  ("dark-theme" ∈ bodyClasses
      (initializeTheme prefersDark (mkPage body (delete "theme" (storage p)) notes))
   <-> prefersDark = true).
Proof.
  intros Hbody. split.
  - assert (Hcur : currentTheme prefersDark (storage (toggleTheme p))
                   = if bool_decide ("dark-theme" ∈ bodyClasses (toggleTheme p))
                     then "dark" else "light").
    { unfold currentTheme. rewrite dark_after_toggle. by destruct (bool_decide _). }
    unfold initializeTheme. cbn [storage]. rewrite Hcur.
    destruct (bool_decide ("dark-theme" ∈ bodyClasses (toggleTheme p))) eqn:Hd.
    + apply bool_decide_eq_true in Hd.
      rewrite bool_decide_eq_true_2 by done. cbn [bodyClasses].
      split; [done | intros _; set_solver].
    + apply bool_decide_eq_false in Hd.
      rewrite bool_decide_eq_false_2 by done. cbn [bodyClasses]. done.
  - unfold initializeTheme, currentTheme, App.getItem. cbn [storage].
    rewrite lookup_delete_eq. destruct prefersDark.
    + rewrite bool_decide_eq_true_2 by done. cbn [bodyClasses].
      split; [done | intros _; set_solver].
    + rewrite bool_decide_eq_false_2 by done. cbn [bodyClasses]. done.
Qed.

Lemma theme_survives_reload_witness :
  ("dark-theme" ∈ bodyClasses
      (initializeTheme false (mkPage ∅ (storage (toggleTheme (mkPage ∅ ∅ []))) []))
   <-> "dark-theme" ∈ bodyClasses (toggleTheme (mkPage ∅ ∅ []))) /\
  ("dark-theme" ∈ bodyClasses
      (initializeTheme false (mkPage ∅ (delete "theme" (storage (mkPage ∅ ∅ []))) []))
   <-> false = true).
Proof.
  apply (theme_survives_reload false ∅ (mkPage ∅ ∅ []) []).
  apply not_elem_of_empty.
Defined.

(** [X7] Two clicks on the theme toggle bring the class list of the body
    back to what it was, and the theme then stored is the one the page had
    before the clicks. *)
Theorem toggleTheme_twice p :
  bodyClasses (toggleTheme (toggleTheme p)) = bodyClasses p /\
  App.getItem "theme" (storage (toggleTheme (toggleTheme p)))
  = Some (if bool_decide ("dark-theme" ∈ bodyClasses p) then "dark" else "light").
Proof.
  assert (Hc : bodyClasses (toggleTheme (toggleTheme p)) = bodyClasses p).
  { unfold toggleTheme; simpl. unfold classList_toggle.
    destruct (bool_decide ("dark-theme" ∈ bodyClasses p)) eqn:Hd.
    - apply bool_decide_eq_true in Hd.
      rewrite bool_decide_eq_false_2 by set_solver.
      apply set_eq. intros x. rewrite elem_of_union, elem_of_difference, elem_of_singleton.
      destruct (decide (x = "dark-theme")); naive_solver.
    - apply bool_decide_eq_false in Hd.
      rewrite bool_decide_eq_true_2 by set_solver.
      set_solver. }
  split; [done |]. by rewrite dark_after_toggle, Hc.
Qed.

End ThemeFacts.

Section SettingsFacts.
Import App Settings.

Implicit Types (w : AppWorld).

(** [X8] Toggling gentle mode and toggling high contrast do not interfere:
    in either order they leave the same state; toggling gentle mode leaves
    the high-contrast flag, its class and its stored value alone; and after
    the toggle the body carries the class [gentle-mode] exactly if the flag
    is set, whatever the class list was before. *)
Theorem toggles_independent w :
  toggleGentleMode (toggleHighContrast w) = toggleHighContrast (toggleGentleMode w) /\
  highContrast (app (toggleGentleMode w)) = highContrast (app w) /\
  getItem "highContrast" (storage (toggleGentleMode w))
  = getItem "highContrast" (storage w) /\
  ("high-contrast" ∈ bodyClasses (toggleGentleMode w)
   <-> "high-contrast" ∈ bodyClasses w) /\
  ("gentle-mode" ∈ bodyClasses (toggleGentleMode w)
   <-> gentleMode (app (toggleGentleMode w)) = true).
Proof.
  destruct w as [[g hcf] st cls sh].
  unfold toggleGentleMode, toggleHighContrast, showGentleNotification, setItem; simpl.
  split; [| split; [done | split; [| split]]].
  - f_equal.
    + by apply insert_insert_ne.
    + unfold classList_toggle. destruct g, hcf; simpl; set_solver.
  - by rewrite getItem_setItem_ne.
  - unfold classList_toggle. destruct g; simpl; set_solver.
  - unfold classList_toggle. destruct g; simpl; set_solver.
Qed.

Lemma constructor_toggleGentleMode w :
  constructor (storage w) = app w ->
  constructor (storage (toggleGentleMode w)) = app (toggleGentleMode w).
Proof.
  destruct w as [[g hcf] st cls sh]. unfold constructor, toggleGentleMode; simpl.
  intros [= Hg Hh].
  rewrite getItem_setItem, is_true_string_of_bool.
  by rewrite getItem_setItem_ne, Hh.
Qed.

Lemma constructor_toggleHighContrast w :
  constructor (storage w) = app w ->
  constructor (storage (toggleHighContrast w)) = app (toggleHighContrast w).
Proof.
  destruct w as [[g hcf] st cls sh]. unfold constructor, toggleHighContrast; simpl.
  intros [= Hg Hh].
  rewrite getItem_setItem, is_true_string_of_bool.
  by rewrite getItem_setItem_ne, Hg.
Qed.

(** [X9] The settings survive a reload, whatever was clicked. Start from a
    page view on a body that arrives without the two classes, press the two
    toggles any number of times in any order, and reload: the new page view
    has the same flags and the same class list as the page just left. *)
Theorem settings_survive_reload storage0 body ts :
  "gentle-mode" ∉ body -> "high-contrast" ∉ body ->
  app (boot (storage (presses (boot storage0 body) ts)) body)
  = app (presses (boot storage0 body) ts) /\
  bodyClasses (boot (storage (presses (boot storage0 body) ts)) body)
  = bodyClasses (presses (boot storage0 body) ts).
Proof.
  intros Hg Hh.
  set (classes_of (a : TherapeuticApp) :=
         (if highContrast a then {[ "high-contrast" ]} ∪
            (if gentleMode a then {[ "gentle-mode" ]} ∪ body else body)
          else (if gentleMode a then {[ "gentle-mode" ]} ∪ body else body)) : gset string).
  assert (Hinv : forall w,
            constructor (storage w) = app w -> bodyClasses w = classes_of (app w) ->
            constructor (storage (presses w ts)) = app (presses w ts) /\
            bodyClasses (presses w ts) = classes_of (app (presses w ts))).
  { unfold presses. induction ts as [| t ts IH]; intros w Hc Hb; simpl; [done |].
    apply IH; destruct t; simpl.
    - by apply constructor_toggleGentleMode.
    - by apply constructor_toggleHighContrast.
    - destruct w as [[g hcf] st cls sh]. simpl in *. subst cls.
      unfold classes_of, classList_toggle; simpl. destruct g, hcf; simpl; set_solver.
    - destruct w as [[g hcf] st cls sh]. simpl in *. subst cls.
      unfold classes_of, classList_toggle; simpl. destruct g, hcf; simpl; set_solver. }
  destruct (Hinv (boot storage0 body)) as [Hc Hb]; [reflexivity | reflexivity |].
  set (w' := presses (boot storage0 body) ts) in *.
  change (app (boot (storage w') body)) with (constructor (storage w')).
  change (bodyClasses (boot (storage w') body))
    with (classes_of (constructor (storage w'))).
  by rewrite Hc, Hb.
Qed.

Lemma settings_survive_reload_witness :
  app (boot (storage (presses (boot ∅ ∅) [Gentle; Contrast; Gentle])) ∅)
  = app (presses (boot ∅ ∅) [Gentle; Contrast; Gentle]) /\
  bodyClasses (boot (storage (presses (boot ∅ ∅) [Gentle; Contrast; Gentle])) ∅)
  = bodyClasses (presses (boot ∅ ∅) [Gentle; Contrast; Gentle]).
Proof.
  apply (settings_survive_reload ∅ ∅ [Gentle; Contrast; Gentle]);
    apply not_elem_of_empty.
Defined.

End SettingsFacts.

(** * Minutes on the page *)
Section ActivityFacts.
Import JS Activity.

Implicit Types (s : State) (tcs : list (string * nat)).

Lemma parseInt_printed z : parseInt (Some (toString z)) = Some z.
Proof.
  unfold parseInt. rewrite <- (string_app_nil_r (toString z)).
  by apply parseInt_toString.
Qed.

Lemma key_inj today other : key today = key other -> today = other.
Proof. unfold key. apply (inj (String.app "activeTime_")). Qed.

Lemma stored_minute s today choice :
  App.getItem (key today) (storage (minute s (today, choice)))
  = Some (toString (stored today s + 1)) /\
  stored today (minute s (today, choice)) = stored today s + 1.
Proof.
  assert (H : App.getItem (key today) (storage (minute s (today, choice)))
              = Some (toString (stored today s + 1))).
  { unfold minute. destruct (Z.rem (activeTime s + 1) 15 =? 0); simpl;
      apply getItem_setItem. }
  split; [done |]. unfold stored at 1. by rewrite H, parseInt_printed.
Qed.

Lemma stored_minute_other s today other choice :
  other <> today ->
  App.getItem (key other) (storage (minute s (today, choice)))
  = App.getItem (key other) (storage s).
Proof.
  intros Hne. unfold minute.
  assert (key today <> key other) by (intros H; by apply key_inj in H).
  destruct (Z.rem (activeTime s + 1) 15 =? 0); simpl; by apply getItem_setItem_ne.
Qed.

(** [X10] The minutes of a day add up. Take any number of runs of the
    minute callback on one day, with a number stored at first that is not
    below -2^53 and the runs not taking it above 2^53. Afterwards the number
    stored under that day's key is the number that was stored before (0 for
    a missing or unreadable value) plus the number of runs, written in
    decimal; the values stored for other days are not touched. *)
Theorem minutes_counted today tcs s :
  Forall (fun tc => tc.1 = today) tcs ->
  counts_exactly today s (length tcs) = true ->
  stored today (minutes s tcs) = stored today s + Z.of_nat (length tcs) /\
  (tcs <> [] ->
   App.getItem (key today) (storage (minutes s tcs))
   = Some (toString (stored today s + Z.of_nat (length tcs)))) /\
  (forall other, other <> today ->
   App.getItem (key other) (storage (minutes s tcs))
   = App.getItem (key other) (storage s)).
Proof.
  intros Hday _. revert s.
  induction Hday as [| [t c] tcs Ht _ IH]; intros s.
  - simpl. split; [lia |]. split; done.
  - simpl in Ht. subst t. unfold minutes in *. cbn [fold_left].
    destruct (IH (minute s (today, c))) as (IH1 & IH2 & IH3).
    destruct (stored_minute s today c) as [Hget Hst].
    rewrite Hst in IH1, IH2.
    split; [rewrite IH1; cbn [length]; lia |]. split.
    + intros _. destruct tcs as [| tc tcs].
      * cbn [fold_left length]. rewrite Hget. do 2 f_equal.
      * rewrite IH2 by done. do 2 f_equal. cbn [length]. lia.
    + intros other Hne. rewrite IH3 by done. by apply stored_minute_other.
Qed.

Lemma minutes_counted_witness :
  stored "Mon Nov 02 2026"
         (minutes (loaded ∅) [("Mon Nov 02 2026", 0%nat); ("Mon Nov 02 2026", 3%nat)])
  = stored "Mon Nov 02 2026" (loaded ∅) + Z.of_nat 2 /\
  App.getItem (key "Mon Nov 02 2026")
    (storage (minutes (loaded ∅)
                [("Mon Nov 02 2026", 0%nat); ("Mon Nov 02 2026", 3%nat)]))
  = Some "2".
Proof.
  destruct (minutes_counted "Mon Nov 02 2026"
              [("Mon Nov 02 2026", 0%nat); ("Mon Nov 02 2026", 3%nat)] (loaded ∅))
    as (H1 & H2 & _).
  - repeat constructor.
  - reflexivity.
  - split; [exact H1 |]. rewrite H2 by discriminate. reflexivity.
Defined.

Lemma div_15_succ a :
  0 <= a ->
  (a + 1) / 15 = a / 15 + (if Z.rem (a + 1) 15 =? 0 then 1 else 0).
Proof.
  intros Ha. rewrite Z.rem_mod_nonneg by lia.
  pose proof (Z.div_mod a 15 ltac:(lia)).
  pose proof (Z.mod_pos_bound a 15 ltac:(lia)).
  pose proof (Z.div_mod (a + 1) 15 ltac:(lia)).
  pose proof (Z.mod_pos_bound (a + 1) 15 ltac:(lia)).
  destruct (Z.eqb_spec ((a + 1) mod 15) 0); lia.
Qed.

Lemma encouragement_in_list choice :
  In (nth (choice mod length encouragements) encouragements "") encouragements.
Proof.
  apply nth_In. apply Nat.mod_upper_bound. discriminate.
Qed.

(** [X11] An encouragement is shown at every fifteenth minute and at no
    other: after [n] runs of the minute callback since the page was loaded,
    [n / 15] notifications have been shown, each one of the four
    encouragements, of type [info], whatever the dates and the draws. *)
Theorem encouragement_every_fifteen storage0 tcs :
  activeTime (minutes (loaded storage0) tcs) = Z.of_nat (length tcs) /\
  Z.of_nat (length (notifications (minutes (loaded storage0) tcs)))
  = Z.of_nat (length tcs) / 15 /\
  Forall (fun n => In n.1 encouragements /\ n.2 = "info")
         (notifications (minutes (loaded storage0) tcs)).
Proof.
  assert (H : forall s,
    0 <= activeTime s ->
    Z.of_nat (length (notifications s)) = activeTime s / 15 ->
    Forall (fun n => In n.1 encouragements /\ n.2 = "info") (notifications s) ->
    activeTime (minutes s tcs) = activeTime s + Z.of_nat (length tcs) /\
    Z.of_nat (length (notifications (minutes s tcs)))
    = (activeTime s + Z.of_nat (length tcs)) / 15 /\
    Forall (fun n => In n.1 encouragements /\ n.2 = "info")
           (notifications (minutes s tcs))).
  { unfold minutes. induction tcs as [| [t c] tcs IH]; intros s Ha Hn Hall.
    - simpl. rewrite Z.add_0_r. done.
    - cbn [fold_left length].
      destruct (IH (minute s (t, c))) as (IH1 & IH2 & IH3).
      + unfold minute. destruct (Z.rem (activeTime s + 1) 15 =? 0); simpl; lia.
      + pose proof (div_15_succ (activeTime s) Ha) as Hdiv.
        unfold minute. destruct (Z.rem (activeTime s + 1) 15 =? 0); simpl.
        * rewrite length_app. simpl. lia.
        * lia.
      + unfold minute. destruct (Z.rem (activeTime s + 1) 15 =? 0); simpl; [| done].
        apply Forall_app_2; [done |]. constructor; [| done].
        split; [apply encouragement_in_list | done].
      + assert (Hat : activeTime (minute s (t, c)) = activeTime s + 1).
        { unfold minute. by destruct (Z.rem (activeTime s + 1) 15 =? 0). }
        rewrite Hat in IH1, IH2.
        split; [lia |]. split; [| done]. rewrite IH2. f_equal. lia. }
  destruct (H (loaded storage0)) as (H1 & H2 & H3); try done.
Qed.

End ActivityFacts.

(** * Progress bars over several completions *)
Section ProgressRunsFacts.
Import JS Progress ProgressInit.

Lemma querySelector_matches a bs b :
  querySelector a bs = Some b -> data_activity b = Some a.
Proof.
  induction bs as [| b' bs IH]; simpl; [done |].
  destruct (matches a b') eqn:Hm; [| done].
  intros [= <-]. by apply bool_decide_eq_true in Hm.
Qed.







Lemma updateProgressBar_found a p b :
  selector_literal a = true ->
  querySelector a (bars p) = Some b ->
  reads_exactly b (overall p) = true ->
  exists p',
    updateProgressBar a p = Some p' /\
    querySelector a (bars p') = Some (bump_bar b) /\
    overall p' = bump_overall <$> overall p.
Proof.
  intros Hlit Hq Hex. unfold updateProgressBar. rewrite Hlit, Hq, Hex.
  eexists. split; [done |]. cbn [bars overall].
  split; [by apply querySelector_bump_first | by destruct (overall p)].
Qed.

Lemma bump_bar_width b :
  -25 <= bar_progress b ->
  bar_width (bump_bar b) = toString (bar_progress (bump_bar b)) +:+ "%".
Proof.
  intros Hb. rewrite bar_progress_bump by done.
  unfold bump_bar. cbn [bar_width]. apply assign_width_taken. lia.
Qed.

(** [X13] Completions add up, to the cap. Take an id that the selector
    tests literally, a bar for it that does not read a negative number, and
    an overall indicator, if the page has one, that does not read a number
    below -2^53. After [k + 1] completions the bar reads the smaller of its
    first value plus [25 (k + 1)] and 100, and the overall indicator the
    smaller of its first value plus [5 (k + 1)] and 100; four completions
    fill the bar. *)
Theorem completions_add_up a p b (k : nat) :
  selector_literal a = true ->
  querySelector a (bars p) = Some b ->
  0 <= bar_progress b ->
  (forall o, overall p = Some o -> - 2 ^ 53 <= overall_progress o) ->
  exists p' b',
    completions (S k) a p = Some p' /\
    querySelector a (bars p') = Some b' /\
    bar_progress b' = Z.min (bar_progress b + 25 * (Z.of_nat k + 1)) 100 /\
    bar_width b' = toString (bar_progress b') +:+ "%" /\
    ((3 <= k)%nat -> bar_progress b' = 100) /\
    (forall o, overall p = Some o ->
       exists o',
         overall p' = Some o' /\
         overall_progress o'
         = Z.min (overall_progress o + 5 * (Z.of_nat k + 1)) 100) /\
    (overall p = None -> overall p' = None).
Proof.
  intros Hlit Hq Hb Ho.
  assert (Hstep : forall p0 b0,
    querySelector a (bars p0) = Some b0 ->
    0 <= bar_progress b0 ->
    (forall o, overall p0 = Some o -> - 2 ^ 53 <= overall_progress o) ->
    exists p1,
      updateProgressBar a p0 = Some p1 /\
      querySelector a (bars p1) = Some (bump_bar b0) /\
      overall p1 = bump_overall <$> overall p0).
  { intros p0 b0 Hq0 Hb0 Ho0. apply updateProgressBar_found; [done | done |].
    unfold reads_exactly, read_exactly. apply andb_true_iff.
    split; [apply Z.leb_le; lia |].
    destruct (overall p0) as [o |]; [| done]. apply Z.leb_le. by apply Ho0. }
  induction k as [| k (p1 & b1 & Hc1 & Hq1 & Hb1 & Hw1 & _ & Ho1 & Hn1)].
  - destruct (Hstep p b Hq Hb Ho) as (p1 & Hp1 & Hq1 & Ho1).
    exists p1, (bump_bar b). cbn [completions].
    split; [done |]. split; [done |].
    split; [rewrite bar_progress_bump by lia; f_equal; lia |].
    split; [apply bump_bar_width; lia |].
    split; [lia |]. split.
    + intros o Hpo. exists (bump_overall o). rewrite Ho1, Hpo. split; [done |].
      rewrite overall_progress_bump. f_equal; lia.
    + intros Hpo. by rewrite Ho1, Hpo.
  - destruct (Hstep p1 b1 Hq1) as (p2 & Hp2 & Hq2 & Ho2).
    + rewrite Hb1. lia.
    + intros o1 Hpo1. destruct (overall p) as [o |] eqn:Hpo.
      * destruct (Ho1 o eq_refl) as (o1' & Ho1' & Hv).
        rewrite Ho1' in Hpo1. injection Hpo1 as <-. rewrite Hv.
        specialize (Ho o eq_refl). lia.
      * rewrite Hn1 in Hpo1 by done. done.
    + exists p2, (bump_bar b1).
      change (completions (S (S k)) a p)
        with (match completions (S k) a p with
              | Some p' => updateProgressBar a p'
              | None => None
              end).
      rewrite Hc1. split; [done |]. split; [done |].
      assert (Hv : bar_progress (bump_bar b1)
                   = Z.min (bar_progress b + 25 * (Z.of_nat (S k) + 1)) 100).
      { rewrite bar_progress_bump by lia. rewrite Hb1. lia. }
      split; [done |].
      split; [apply bump_bar_width; lia |].
      split; [intros Hk; rewrite Hv; lia |]. split.
      * intros o Hpo. destruct (Ho1 o Hpo) as (o1 & Ho1' & Hv1).
        exists (bump_overall o1). rewrite Ho2, Ho1'. split; [done |].
        rewrite overall_progress_bump, Hv1. lia.
      * intros Hpo. by rewrite Ho2, Hn1.
Qed.

Lemma completions_add_up_witness :
  exists p' b',
    completions 4 "a1" (mkPage [mkBar (Some "a1") "" ""] (Some (mkOverall None "" "")))
    = Some p' /\
    querySelector "a1" (bars p') = Some b' /\
    bar_progress b' = 100 /\ bar_width b' = "100%".
Proof.
  destruct (completions_add_up "a1"
              (mkPage [mkBar (Some "a1") "" ""] (Some (mkOverall None "" "")))
              (mkBar (Some "a1") "" "") 3 eq_refl eq_refl)
    as (p' & b' & Hc & Hq & Hb & Hw & _).
  - vm_compute. discriminate.
  - intros o [= <-]. vm_compute. discriminate.
  - exists p', b'. split; [exact Hc |]. split; [exact Hq |]. split; [exact Hb |].
    rewrite Hw, Hb. reflexivity.
Defined.

Lemma whole_percentage_printed n :
  -1000000 < n < 1000000 -> whole_percentage (toString n) = Some n.
Proof.
  intros Hn. unfold whole_percentage.
  rewrite <- (string_app_nil_r (toString n)) at 1.
  rewrite parseInt_toString by done.
  rewrite String.eqb_refl. simpl.
  destruct (Z.ltb_spec (Z.abs n) 1000000); [done | lia].
Qed.

(** [X14] A bar starts at its [data-progress]. For an attribute that is a
    whole number of at most six digits, the label beside the bar shows the
    number with a percent sign. If the number is not negative, the width
    written at page load is the same text, and a first completion then reads
    the number back and adds 25 to it, up to 100. A negative number is
    refused as a width: the bar keeps the width it had. A bar without the
    attribute, or with an empty one, starts at "0%". *)
Theorem initial_progress n b ls :
  -1000000 < n < 1000000 ->
  exists f,
    initializeProgressBar (mkFill (Some (toString n)) b ls) = Some f /\
    labels f = (ls ++ [toString n +:+ "%"])%list /\
    (0 <= n ->
     bar_width (bar f) = toString n +:+ "%" /\
     bar_progress (bar f) = n /\
     bar_progress (bump_bar (bar f)) = Z.min (n + 25) 100) /\
    (n < 0 -> bar_width (bar f) = bar_width b) /\
    initializeProgressBar (mkFill None b ls)
    = Some (mkFill None (mkBar (data_activity b) "0%" (bar_text b)) (ls ++ ["0%"])%list) /\
    initializeProgressBar (mkFill (Some "") b ls)
    = Some (mkFill (Some "") (mkBar (data_activity b) "0%" (bar_text b))
                   (ls ++ ["0%"])%list).
Proof.
  intros Hn.
  assert (Ht : targetWidth (mkFill (Some (toString n)) b ls) = toString n).
  { unfold targetWidth; simpl. pose proof (toString_nonempty n).
    by destruct (toString n). }
  unfold initializeProgressBar at 1. rewrite Ht, whole_percentage_printed by done.
  eexists. split; [done |]. cbn [bar bar_width labels fill_progress].
  split; [done |]. split; [| split; [| done]].
  - intros Hpos. rewrite assign_width_taken by done.
    assert (Hp : bar_progress (mkBar (data_activity b) (toString n +:+ "%") (bar_text b)) = n).
    { unfold bar_progress. cbn [bar_width]. unfold parseInt.
      by rewrite parseInt_toString. }
    split; [done |]. split; [done |].
    rewrite bar_progress_bump by (rewrite Hp; lia). by rewrite Hp.
  - intros Hneg. by apply assign_width_refused.
Qed.

Lemma initial_progress_witness :
  initializeProgressBar (mkFill (Some "40") (mkBar (Some "a1") "" "") [])
  = Some (mkFill (Some "40") (mkBar (Some "a1") "40%" "") ["40%"]) /\
  exists f,
    initializeProgressBar (mkFill (Some (toString 40)) (mkBar (Some "a1") "" "") [])
    = Some f /\
    bar_progress (bump_bar (bar f)) = 65.
Proof.
  split; [reflexivity |].
  destruct (initial_progress 40 (mkBar (Some "a1") "" "") []) as (f & Hf & _ & Hpos & _).
  - lia.
  - exists f. split; [exact Hf |].
    destruct Hpos as (_ & _ & Hb); [lia |]. exact Hb.
Defined.

End ProgressRunsFacts.

(** * The breathing exercise *)
Section BreathingFacts.
Import Breathing.

Implicit Types (s : State) (es : list Event).

Lemma coherent_step s e :
  coherent s /\ (isBreathing s = true -> buttonText s = "Stop Breathing Exercise") ->
  coherent (step s e) /\
  (isBreathing (step s e) = true -> buttonText (step s e) = "Stop Breathing Exercise").
Proof.
  destruct s as [b bi pd nh tx an ins ns]. unfold coherent; simpl.
  intros [Hc Htx]. destruct e as [| h]; simpl.
  - unfold click; simpl. destruct b; simpl.
    + destruct Hc as (-> & k & -> & ->). simpl.
      split; [| done]. split; [done | apply difference_diag_L].
    + destruct Hc as (-> & ->). split; [| done]. split; [done |].
      eexists. split; [done | apply union_empty_r_L].
  - unfold timeout; simpl. destruct b; simpl.
    + destruct Hc as (-> & k & -> & ->).
      destruct (decide (h ∈ ({[k]} : gset positive))) as [Hin | Hout].
      * rewrite bool_decide_eq_true_2 by done. simpl.
        split; [| done]. split; [done |]. set_solver.
      * rewrite bool_decide_eq_false_2 by done. simpl.
        split; [| done]. split; [done |]. by exists k.
    + destruct Hc as (-> & ->).
      rewrite bool_decide_eq_false_2 by set_solver. simpl. done.
Qed.

(** [X15] The exercise, its one-minute timeout and its instructions go
    together. In every state reached from the loaded page by clicks and by
    timeouts coming due: while the exercise runs there is exactly one block
    of instructions and exactly one scheduled timeout, the one started with
    this exercise, and the button reads "Stop Breathing Exercise"; while it
    does not run there are no instructions and nothing is scheduled. So the
    timeout of an exercise that was stopped by hand never cuts a later
    exercise short, and instructions never pile up. *)
Theorem breathing_coherent text handle es :
  coherent (run (loaded text handle) es) /\
  (instructions (run (loaded text handle) es) <= 1)%nat /\
  (forall h, h ∈ pending (run (loaded text handle) es) ->
     isBreathing (run (loaded text handle) es) = true /\
     breathInterval (run (loaded text handle) es) = Some h) /\
  (isBreathing (run (loaded text handle) es) = true ->
     buttonText (run (loaded text handle) es) = "Stop Breathing Exercise").
Proof.
  assert (H : forall s,
            coherent s /\
            (isBreathing s = true -> buttonText s = "Stop Breathing Exercise") ->
            coherent (run s es) /\
            (isBreathing (run s es) = true ->
             buttonText (run s es) = "Stop Breathing Exercise")).
  { unfold run. induction es as [| e es IH]; intros s Hs; cbn [fold_left]; [done |].
    by apply IH, coherent_step. }
  destruct (H (loaded text handle)) as [Hc Htx]; [done |].
  split; [done |]. unfold coherent in Hc.
  destruct (isBreathing (run (loaded text handle) es)).
  - destruct Hc as (-> & k & Hk & ->). split; [lia |]. split; [| done].
    intros h Hh. apply elem_of_singleton in Hh. by subst.
  - destruct Hc as (-> & ->). split; [lia |]. split; [| done].
    intros h Hh. by apply elem_of_empty in Hh.
Qed.

End BreathingFacts.

(** * Autosaving the draft *)
Section DraftFacts.
Import Draft.

Implicit Types (s : State) (es : list Event).

Lemma draft_step s e :
  one_pending s ->
  one_pending (step s e) /\
  (length (alerts (step s e)) + size (pending (step s e))
   <= length (alerts s) + size (pending s) + (if is_input e then 1 else 0))%nat /\
  (forall key, key <> "checkinDraft" ->
     App.getItem key (storage (step s e)) = App.getItem key (storage s)).
Proof.
  destruct s as [at_ pd nh st al]. unfold one_pending; simpl.
  intros Hp. destruct e as [| h data]; simpl.
  - unfold input; simpl. split; [| split; [| done]].
    + right. exists nh. split; [done |].
      destruct Hp as [-> | (k & -> & ->)].
      * destruct at_; set_solver.
      * set_solver.
    + assert (Hcl : match at_ with Some h => pd ∖ {[h]} | None => pd end = ∅).
      { destruct Hp as [-> | (k & -> & ->)]; [destruct at_ |]; set_solver. }
      rewrite Hcl, union_empty_r_L, size_singleton. lia.
  - unfold timeout; simpl.
    destruct (decide (h ∈ pd)) as [Hin | Hout].
    + rewrite bool_decide_eq_true_2 by done. simpl.
      assert (Hpd : pd = {[h]}).
      { destruct Hp as [-> | (k & _ & ->)]; [set_solver |].
        apply elem_of_singleton in Hin. by subst. }
      subst pd. rewrite difference_diag_L. split; [by left |]. split.
      * unfold Ajax.showNotification. rewrite length_app, size_singleton, size_empty.
        simpl. lia.
      * intros key Hkey. by apply getItem_setItem_ne.
    + rewrite bool_decide_eq_false_2 by done. simpl.
      split; [done |]. split; [lia | done].
Qed.

(** [X16] Autosave is debounced. In every state reached from the loaded
    page by input events and by timeouts coming due, at most one timeout is
    scheduled, the one started by the latest input; the drafts saved so far
    and the save still scheduled are together no more than the inputs; only
    the key [checkinDraft] of local storage is ever written; and when the
    scheduled timeout runs, it stores the form as it is then, shows one
    "Draft saved" alert, and leaves nothing scheduled. *)
Theorem autosave_debounced storage0 handle es :
  one_pending (run (loaded storage0 handle) es) /\
  (length (alerts (run (loaded storage0 handle) es))
   + size (pending (run (loaded storage0 handle) es))
   <= length (filter (fun e => is_input e = true) es))%nat /\
  (forall key, key <> "checkinDraft" ->
     App.getItem key (storage (run (loaded storage0 handle) es))
     = App.getItem key storage0) /\
  (forall k formData,
     k ∈ pending (run (loaded storage0 handle) es) ->
     App.getItem "checkinDraft"
       (storage (timeout k formData (run (loaded storage0 handle) es)))
     = Some formData /\
     pending (timeout k formData (run (loaded storage0 handle) es)) = ∅ /\
     alerts (timeout k formData (run (loaded storage0 handle) es))
     = (alerts (run (loaded storage0 handle) es)
        ++ [Ajax.mkAlert "Draft saved" "info" 1500])%list).
Proof.
  assert (H : forall s,
    one_pending s ->
    one_pending (run s es) /\
    (length (alerts (run s es)) + size (pending (run s es))
     <= length (alerts s) + size (pending s)
        + length (filter (fun e => is_input e = true) es))%nat /\
    (forall key, key <> "checkinDraft" ->
       App.getItem key (storage (run s es)) = App.getItem key (storage s))).
  { unfold run. induction es as [| e es IH]; intros s Hs; cbn [fold_left].
    - split; [done |]. split; [simpl; lia | done].
    - destruct (draft_step s e Hs) as (Hs' & Hn & Hk).
      destruct (IH (step s e) Hs') as (IH1 & IH2 & IH3).
      split; [done |]. split.
      + rewrite filter_cons. destruct e; simpl in *; lia.
      + intros key Hkey. rewrite IH3 by done. by apply Hk. }
  destruct (H (loaded storage0 handle)) as (H1 & H2 & H3); [by left |].
  split; [done |]. split.
  { change (pending (loaded storage0 handle)) with (∅ : gset positive) in H2.
    change (alerts (loaded storage0 handle)) with (@nil Ajax.Alert) in H2.
    rewrite size_empty in H2. cbn [length] in H2. lia. }
  split; [done |].
  intros k formData Hk. unfold timeout. rewrite bool_decide_eq_true_2 by done.
  unfold saveDraft; simpl. split; [apply getItem_setItem |]. split; [| done].
  destruct H1 as [Hp | (k' & _ & Hp)]; rewrite Hp in *; set_solver.
Qed.

End DraftFacts.

(** * The scroll reminder *)
Section ScrollFacts.
Import Scroll.

Implicit Types (s : State) (evs : list (Z * Z)).

Lemma spaced_later gap from from' times :
  from' <= from -> spaced gap from times -> spaced gap from' times.
Proof. destruct times as [| t times]; simpl; [done |]. intros ? [? ?]. split; [lia | done]. Qed.

Lemma scroll_cases s now scrollTop :
  (scroll s (now, scrollTop) = s \/
   (5 * 60 * 1000 < now - lastScrollReminder s /\ 500 < scrollTop /\
    lastScrollReminder (scroll s (now, scrollTop)) = now /\
    alerts (scroll s (now, scrollTop))
    = (alerts s ++ [Ajax.mkAlert
         "You've been scrolling for a while. Consider taking a break."
         "warning" 3000])%list)).
Proof.
  unfold scroll.
  destruct (Z.ltb_spec (5 * 60 * 1000) (now - lastScrollReminder s)); [| by left].
  destruct (Z.ltb_spec 500 scrollTop); [| by left].
  right. done.
Qed.

(** [X17] Scroll reminders are held back for five minutes. For any
    sequence of scroll events, with any clock readings and positions, each
    reminder appears more than five minutes (by the clock as read) after the
    one before it, only at an event that is more than 500 pixels down, and
    exactly one alert is on the page for each of them. *)
Theorem scroll_reminders_spaced evs :
  spaced (5 * 60 * 1000) 0 (shown_at loaded evs) /\
  length (alerts (scrolls loaded evs)) = length (shown_at loaded evs) /\
  Forall (fun t => exists scrollTop, In (t, scrollTop) evs /\ 500 < scrollTop)
         (shown_at loaded evs).
Proof.
  assert (H : forall s,
    spaced (5 * 60 * 1000) (lastScrollReminder s) (shown_at s evs) /\
    length (alerts (scrolls s evs))
    = (length (alerts s) + length (shown_at s evs))%nat /\
    Forall (fun t => exists scrollTop, In (t, scrollTop) evs /\ 500 < scrollTop)
           (shown_at s evs)).
  { unfold scrolls. induction evs as [| [now top] evs IH]; intros s.
    - simpl. split; [done |]. split; [lia | done].
    - cbn [fold_left shown_at fst].
      destruct (IH (scroll s (now, top))) as (IH1 & IH2 & IH3).
      assert (IH3' : Forall (fun t => exists scrollTop,
                        In (t, scrollTop) ((now, top) :: evs) /\ 500 < scrollTop)
                       (shown_at (scroll s (now, top)) evs)).
      { eapply Forall_impl; [exact IH3 |]. intros t (st & Hin & Hst).
        exists st. split; [by right | done]. }
      destruct (scroll_cases s now top) as [Hsame | (Hgap & Htop & Hlast & Hal)].
      + rewrite Hsame in *. rewrite Nat.ltb_irrefl. simpl. done.
      + rewrite Hal, length_app. cbn [length].
        replace (length (alerts s) <? length (alerts s) + 1)%nat with true
          by (symmetry; apply Nat.ltb_lt; lia).
        rewrite Hlast in IH1. rewrite IH2, Hal, length_app. cbn [length app].
        split; [split; [lia | done] |]. split; [lia |].
        constructor; [| done]. exists top. split; [by left | done]. }
  destruct (H loaded) as (H1 & H2 & H3). done.
Qed.

End ScrollFacts.

(** * Gentle form validation *)
Section FormsFacts.
Import Forms.

Implicit Types (f : Field) (fs : list Field) (l : Loop).

Lemma trimStart_nil v :
  trimStart v = [] <-> Forall (fun u => is_white_space u = true) v.
Proof.
  induction v as [| u v IH]; simpl; [done |].
  destruct (is_white_space u) eqn:Hu.
  - rewrite IH. split; [by constructor | by inversion 1].
  - split; [done | inversion 1; congruence].
Qed.

Lemma trimStart_head v u r : trimStart v = u :: r -> is_white_space u = false.
Proof.
  induction v as [| u' v IH]; simpl; [done |].
  destruct (is_white_space u') eqn:Hu; [done |]. by intros [= -> _].
Qed.

(** A value is blank exactly if it holds nothing but white space. *)
Lemma blank_spec f :
  blank f = true <-> Forall (fun u => is_white_space u = true) (value f).
Proof.
  rewrite <- trimStart_nil. unfold blank, trim, trimEnd.
  destruct (trimStart (value f)) as [| u r] eqn:Hv; [done |].
  pose proof (trimStart_head _ _ _ Hv) as Hu.
  destruct (trimStart (rev (u :: r))) as [| u' r'] eqn:Hts.
  - exfalso. apply trimStart_nil, Forall_rev in Hts.
    rewrite (rev_involutive (u :: r)) in Hts. inversion Hts; congruence.
  - cbn [rev]. destruct (rev r' ++ [u'])%list eqn:E; [by destruct (rev r') | done].
Qed.

Lemma fold_visit fs : forall l,
  isValid (fold_left visit fs l)
  = isValid l && forallb (fun f => negb (blank f)) fs /\
  firstInvalid (fold_left visit fs l)
  = match firstInvalid l with
    | Some i => Some i
    | None => (fun ix => (position l + ix.1)%nat)
                <$> list_find (fun f => blank f = true) fs
    end /\
  visited (fold_left visit fs l)
  = (visited l ++
     map (fun f => mkField (value f) (blank f)
                     (if blank f then Some "This field is gently required" else None))
         fs)%list.
Proof.
  induction fs as [| f fs IH]; intros l.
  - simpl. rewrite andb_true_r, app_nil_r. split; [done |]. split; [| done].
    by destruct (firstInvalid l).
  - cbn [fold_left]. destruct (IH (visit l f)) as (IH1 & IH2 & IH3).
    rewrite IH1, IH2, IH3. unfold visit. cbn [forallb map list_find].
    destruct (blank f) eqn:Hb; cbn [isValid firstInvalid position visited negb].
    + rewrite decide_True by done. simpl.
      rewrite andb_false_r, <- app_assoc. split; [done |]. split; [| done].
      destruct (firstInvalid l); [done |]. f_equal. lia.
    + rewrite decide_False by done.
      rewrite <- app_assoc. split; [done |]. split; [| done].
      destruct (firstInvalid l); [done |].
      destruct (list_find (fun f0 => blank f0 = true) fs) as [[i x] |]; simpl; [| done].
      f_equal. lia.
Qed.

Lemma forallb_not_blank fs :
  forallb (fun f => negb (blank f)) fs = false <->
  Exists (fun f => Forall (fun u => is_white_space u = true) (value f)) fs.
Proof.
  induction fs as [| f fs IH]; cbn [forallb].
  - split; [done | by inversion 1].
  - rewrite Exists_cons, <- IH, <- blank_spec.
    destruct (blank f); simpl; naive_solver.
Qed.

Lemma list_find_blank_None fs :
  forallb (fun f => negb (blank f)) fs = true ->
  list_find (fun f => blank f = true) fs = None.
Proof.
  intros Hall. apply list_find_None. apply Forall_forall. intros f Hf%list_elem_of_In.
  rewrite forallb_forall in Hall. specialize (Hall f Hf).
  by destruct (blank f).
Qed.

(** [X18] A submit is held back exactly if some required field is blank,
    that is, holds nothing but white space. When it is held back the first
    blank required field, in document order, gets the focus and the
    notification "Please fill in all required fields gently" is shown; when
    it is not, no focus moves and nothing is shown. *)
Theorem validateForm_prevents fs notes :
  (defaultPrevented (validateForm fs notes) = true <->
   Exists (fun f => Forall (fun u => is_white_space u = true) (value f)) fs) /\
  focused (validateForm fs notes)
  = fst <$> list_find (fun f => blank f = true) fs /\
  shown (validateForm fs notes)
  = (if defaultPrevented (validateForm fs notes)
     then notes ++ [("Please fill in all required fields gently", "info")]
     else notes)%list.
Proof.
  destruct (fold_visit fs (mkLoop true None 0 [])) as (Hv & Hf & _).
  cbn [isValid firstInvalid position andb] in Hv, Hf.
  rewrite <- forallb_not_blank. unfold validateForm. rewrite Hv.
  destruct (forallb (fun f => negb (blank f)) fs) eqn:Hall;
    cbn [defaultPrevented focused shown].
  - rewrite list_find_blank_None by done. done.
  - rewrite Hf. split; [done |]. split; [| done].
    by destruct (list_find (fun f => blank f = true) fs) as [[i x] |].
Qed.


End FormsFacts.

(** * Choosing a mood *)
Section MoodFacts.
Import App.

(** [X20] A click on a mood button selects that mood and no other: after
    the click the clicked button is the only one marked active, whatever was
    marked before, and no button has changed its mood; the hidden input, if
    the page has one, holds the mood of the clicked button; local storage
    holds that mood under [lastMood] and the time of the click under
    [lastMoodTime]; and the next page view restores from exactly that
    mood. *)
Theorem mood_click_selects i now p st b :
  moodButtons p !! i = Some b ->
  (forall j,
     moodButtons (clickMood i now p st).1 !! j
     = (fun bj => mkMoodButton (data_mood bj) (bool_decide (j = i)))
         <$> moodButtons p !! j) /\
  moodInput (clickMood i now p st).1 = (fun _ => data_mood b) <$> moodInput p /\
  getItem "lastMood" (clickMood i now p st).2 = Some (data_mood b) /\
  getItem "lastMoodTime" (clickMood i now p st).2 = Some now /\
  (forall p', loadLastMood (clickMood i now p st).2 p'
              = restoreMood (Some (data_mood b)) p').
Proof.
  intros Hb. unfold clickMood. rewrite Hb. cbn [fst snd].
  assert (Hlast : getItem "lastMood" (saveMood (data_mood b) now st)
                  = Some (data_mood b)).
  { unfold saveMood. rewrite getItem_setItem_ne by done. apply getItem_setItem. }
  split; [| split; [| split; [| split]]].
  - intros j. unfold set_input. cbn [moodButtons].
    change (map (fun b' => mkMoodButton (data_mood b') false) (moodButtons p))
      with ((fun b' => mkMoodButton (data_mood b') false) <$> moodButtons p).
    destruct (decide (j = i)) as [-> | Hne].
    + rewrite list_lookup_insert_eq.
      * rewrite Hb. simpl. by rewrite bool_decide_eq_true_2.
      * rewrite length_fmap. by eapply lookup_lt_Some.
    + rewrite list_lookup_insert_ne by done. rewrite list_lookup_fmap.
      rewrite bool_decide_eq_false_2 by done. done.
  - unfold set_input. cbn [moodInput]. by destruct (moodInput p).
  - done.
  - unfold saveMood. apply getItem_setItem.
  - intros p'. unfold loadLastMood. by rewrite Hlast.
Qed.

Lemma mood_click_selects_witness :
  moodButtons
    (clickMood 1 "2026-11-02T10:00:00.000Z"
       (mkMoodPage [mkMoodButton "happy" true; mkMoodButton "sad" false] (Some "happy"))
       ∅).1
  = [mkMoodButton "happy" false; mkMoodButton "sad" true] /\
  getItem "lastMood"
    (clickMood 1 "2026-11-02T10:00:00.000Z"
       (mkMoodPage [mkMoodButton "happy" true; mkMoodButton "sad" false] (Some "happy"))
       ∅).2
  = Some (data_mood (mkMoodButton "sad" false)).
Proof.
  split; [reflexivity |].
  apply (mood_click_selects 1 "2026-11-02T10:00:00.000Z"
           (mkMoodPage [mkMoodButton "happy" true; mkMoodButton "sad" false] (Some "happy"))
           ∅ (mkMoodButton "sad" false)).
  reflexivity.
Defined.

End MoodFacts.

(** * Coming back to the tab *)
Section VisibilityFacts.
Import Visibility.

(** [X21] "Welcome back" is shown once per return to the tab: the number of
    welcome notifications is the number of times the tab became visible
    directly after having been hidden, so a tab reported visible twice in a
    row is welcomed once, and a tab that was never hidden is never
    welcomed. *)
Theorem welcome_once_per_return es :
  length (shown (run loaded es)) = returns false es /\
  Forall (fun n => n = ("Welcome back. Take a moment to re-center.", "info"))
         (shown (run loaded es)).
Proof.
  assert (H : forall s,
    length (shown (run s es)) = (length (shown s) + returns (wasAway s) es)%nat /\
    (Forall (fun n => n = ("Welcome back. Take a moment to re-center.", "info"))
            (shown s) ->
     Forall (fun n => n = ("Welcome back. Take a moment to re-center.", "info"))
            (shown (run s es)))).
  { unfold run. induction es as [| e es IH]; intros s; cbn [fold_left returns].
    - split; [lia | done].
    - destruct (IH (step s e)) as [IH1 IH2]. destruct e; cbn [step] in *.
      + split; [done | done].
      + destruct (wasAway s) eqn:Hw; cbn [wasAway shown] in *.
        * rewrite length_app in IH1. cbn [length] in IH1. split; [lia |].
          intros Hall. apply IH2, Forall_app_2; [done | by constructor].
        * rewrite Hw in IH1. split; [lia | done]. }
  destruct (H loaded) as [H1 H2]. split; [done | by apply H2].
Qed.

End VisibilityFacts.

(** * Reading the display *)
Section DisplayFacts.
Import JS Timer.

Lemma toString_two_chars z : 10 <= z -> (2 <= String.length (toString z))%nat.
Proof.
  intros Hz. destruct z as [| p | p]; [lia | | lia].
  change (toString (Zpos p)) with (pretty_N_go (Npos p) "").
  rewrite pretty_N_go_step by lia.
  rewrite pretty_N_go_step by (apply N.div_str_pos; lia).
  destruct (pretty_N_go_digits (N.div (N.div (N.pos p) 10) 10)
              (String (pretty_N_char (N.modulo (N.div (N.pos p) 10) 10))
                 (String (pretty_N_char (N.modulo (N.pos p) 10)) ""))) as (ds & -> & _).
  rewrite string_length_app. simpl. lia.
Qed.

Lemma padStart_long n c s : (n <= String.length s)%nat -> padStart n c s = s.
Proof.
  intros Hn. unfold padStart.
  replace (n - String.length s)%nat with 0%nat by lia. reflexivity.
Qed.

Lemma padded_reads_back z :
  0 <= z -> parseInt (Some (padStart 2 "0" (toString z))) = Some z.
Proof.
  intros Hz. destruct (Z.lt_ge_cases z 10) as [Hlt | Hge].
  - assert (z = 0 \/ z = 1 \/ z = 2 \/ z = 3 \/ z = 4 \/ z = 5 \/ z = 6 \/
            z = 7 \/ z = 8 \/ z = 9) as H by lia.
    repeat (destruct H as [-> | H]; [reflexivity |]). by subst.
  - rewrite padStart_long by (by apply toString_two_chars).
    apply parseInt_printed.
Qed.

Lemma padded_short z :
  0 <= z < 100 -> String.length (padStart 2 "0" (toString z)) = 2%nat.
Proof.
  intros Hz.
  assert (Hlen : (1 <= String.length (toString z) <= 2)%nat).
  { destruct (Z.lt_ge_cases z 10) as [Hlt | Hge].
    - assert (z = 0 \/ z = 1 \/ z = 2 \/ z = 3 \/ z = 4 \/ z = 5 \/ z = 6 \/
              z = 7 \/ z = 8 \/ z = 9) as H by lia.
      repeat (destruct H as [-> | H]; [vm_compute; lia |]). subst. vm_compute; lia.
    - split; [pose proof (toString_two_chars z Hge); lia |].
      destruct z as [| p | p]; [lia | | lia].
      change (toString (Zpos p)) with (pretty_N_go (Npos p) "").
      rewrite pretty_N_go_step by lia.
      rewrite pretty_N_go_step by (apply N.div_str_pos; lia).
      replace (N.div (N.div (N.pos p) 10) 10) with 0%N.
      + rewrite pretty_N_go_0. simpl. lia.
      + symmetry. apply N.div_small. apply N.Div0.div_lt_upper_bound. lia. }
  unfold padStart. rewrite string_length_app, repeat_char_length. lia.
Qed.

(** [X22] The display can be read back. For any [remaining] that is not
    negative, the two spans that [updateDisplay] writes read, as numbers,
    the whole minutes and the seconds left, so that sixty times the one plus
    the other is [remaining]; and below one hundred minutes each span is
    exactly two characters long. *)
Theorem display_reads_back r :
  0 <= r ->
  parseInt (Some (timer_minutes (render r))) = Some (r / 60) /\
  parseInt (Some (timer_seconds (render r))) = Some (r mod 60) /\
  60 * (r / 60) + r mod 60 = r /\
  (r < 6000 ->
   String.length (timer_minutes (render r)) = 2%nat /\
   String.length (timer_seconds (render r)) = 2%nat).
Proof.
  intros Hr. unfold render. cbn [timer_minutes timer_seconds].
  rewrite Z.rem_mod_nonneg by lia.
  pose proof (Z.mod_pos_bound r 60 ltac:(lia)).
  pose proof (Z.div_mod r 60 ltac:(lia)).
  assert (0 <= r / 60) by (apply Z.div_pos; lia).
  split; [by apply padded_reads_back |].
  split; [apply padded_reads_back; lia |].
  split; [lia |].
  intros Hlt. split; apply padded_short; [| lia].
  split; [done |]. apply Z.div_lt_upper_bound; lia.
Qed.

Lemma display_reads_back_witness :
  parseInt (Some (timer_minutes (render 299))) = Some (299 / 60) /\
  parseInt (Some (timer_seconds (render 299))) = Some (299 mod 60) /\
  timer_minutes (render 299) = "04" /\ timer_seconds (render 299) = "59".
Proof.
  destruct (display_reads_back 299) as (Hm & Hs & _); [lia |].
  split; [exact Hm |]. split; [exact Hs |]. split; reflexivity.
Defined.

End DisplayFacts.
